(** * Plant Ranger Alexa skill: a shallow embedding of the Lambda handler

    Sources embedded here:
    - [src/lambda/utils/oauth.ts]      (OAuthManager)
    - [src/lambda/utils/api-client.ts] (ApiClient)
    - [src/lambda/alexa-handler.ts]    (getAccessToken and the intent handlers,
      first copy of the file, lines 1-805)

    The effects of the Lambda (DynamoDB, Secrets Manager, HTTP calls through
    axios, the clock, the environment) are modelled by a read-only [World]
    that answers every external call, and a state [St] that holds the token
    table and the trace of the calls performed.  Thrown exceptions are the
    [Throw] case of a small state-and-exception monad. *)

From Stdlib Require Import String Ascii ZArith List Bool DecimalString Lia.
From stdpp Require Import base gmap strings.

Import ListNotations.
Local Open Scope Z_scope.

(* ------------------------------------------------------------------ *)
(** ** JavaScript values and string helpers *)

(** The JSON scalars the code inspects.  A missing field is [None]
    ([undefined]); [JNull] is an explicit [null]. *)
Inductive jval :=
| JNull
| JBool (b : bool)
| JNum (z : Z)
| JStr (s : string).

(** JavaScript truthiness (NaN is not modelled). *)
Definition truthy (v : option jval) : bool :=
  match v with
  | None | Some JNull => false
  | Some (JBool b) => b
  | Some (JNum z) => negb (z =? 0)
  | Some (JStr s) => negb (String.eqb s "")
  end.

Definition truthy_str (s : option string) : bool :=
  match s with
  | None => false
  | Some s => negb (String.eqb s "")
  end.

(** [a || b] on optional strings. *)
Definition or_str (a b : option string) : option string :=
  if truthy_str a then a else b.

(** [a || d] where [d] is a default string. *)
Definition str_or (a : option string) (d : string) : string :=
  match a with
  | Some s => if String.eqb s "" then d else s
  | None => d
  end.

(** Strict equality [v === 'lit']. *)
Definition is_jstr (v : option jval) (lit : string) : bool :=
  match v with
  | Some (JStr s) => String.eqb s lit
  | _ => false
  end.

(** Strict equality [v === true]. *)
Definition is_jtrue (v : option jval) : bool :=
  match v with
  | Some (JBool true) => true
  | _ => false
  end.

(** [String.prototype.toLowerCase], on ASCII letters. *)
Definition lower_ascii (c : ascii) : ascii :=
  let n := nat_of_ascii c in
  if (Nat.leb 65 n && Nat.leb n 90)%bool then ascii_of_nat (n + 32) else c.

Fixpoint toLowerCase (s : string) : string :=
  match s with
  | EmptyString => EmptyString
  | String c r => String (lower_ascii c) (toLowerCase r)
  end.

(** The ASCII part of JavaScript's white space ([\s], [trim]). *)
Definition is_ws (c : ascii) : bool :=
  let n := nat_of_ascii c in
  (Nat.eqb n 32 || (Nat.leb 9 n && Nat.leb n 13))%bool.

Fixpoint trim_start (s : string) : string :=
  match s with
  | EmptyString => EmptyString
  | String c r => if is_ws c then trim_start r else s
  end.

Definition rev_str (s : string) : string :=
  string_of_list_ascii (List.rev (list_ascii_of_string s)).

(** [String.prototype.trim]. *)
Definition trim (s : string) : string :=
  rev_str (trim_start (rev_str (trim_start s))).

(** [s.replace(/^team\s+/, '')]. *)
Definition strip_team_prefix (s : string) : string :=
  match s with
  | String "t" (String "e" (String "a" (String "m" (String c r)))) =>
      if is_ws c then trim_start r else s
  | _ => s
  end.

(** [hay.includes(needle)]. *)
Fixpoint includes (hay needle : string) : bool :=
  (String.prefix needle hay ||
   match hay with
   | EmptyString => false
   | String _ r => includes r needle
   end)%bool.

(** [arr.join(', ')]. *)
Fixpoint join (l : list string) : string :=
  match l with
  | [] => ""
  | [x] => x
  | x :: r => (x ++ ", " ++ join r)%string
  end.

(** Template-literal rendering of a count. *)
Definition show_nat (n : nat) : string := NilZero.string_of_uint (Nat.to_uint n).

(* ------------------------------------------------------------------ *)
(** ** Data exchanged with the collaborators *)

(** A DynamoDB item of the token table (key: userId, tokenType 'access'). *)
Record StoreItem := {
  item_token : string;
  item_refreshToken : option string;
  item_expiresAt : Z;
  item_tokenTypeValue : string
}.

(** [interface StoredTokens] of oauth.ts. *)
Record StoredTokens := {
  accessToken : string;
  refreshToken : option string;
  expiresAt : Z;
  tokenType : string
}.

(** [interface OAuthCredentials] of oauth.ts. *)
Record OAuthCredentials := {
  clientId : string;
  clientSecret : string;
  authUrl : string;
  tokenUrl : string;
  apiBaseUrl : string
}.

(** The body of the token endpoint's answer. *)
Record TokenResponse := {
  access_token : string;
  refresh_token : option string;
  expires_in : Z;
  token_type : string
}.

(** Outcome of one axios request: a 2xx body, an error status, or no
    response at all (with the error code, 'ECONNABORTED' on timeout). *)
Inductive http (A : Type) :=
| HOk (a : A)
| HStatus (status : Z)
| HNoResponse (code : option string).
Arguments HOk {A} a.
Arguments HStatus {A} status.
Arguments HNoResponse {A} code.

(** An outgoing GET request: URL, headers and the axios timeout (ms). *)
Record Request := {
  rq_url : string;
  rq_headers : list (string * string);
  rq_timeout : Z
}.

(** Body of GET /health. *)
Record HealthData := { hd_status : option jval }.

(** One entry of GET /v1/teams. *)
Record Team := { team_id : string; team_name : option string }.
Record TeamsData := { teams : option (list Team) }.

(** One plant of GET /v1/teams/:id. *)
Record TeamPlant := {
  tp_id : string;
  tp_name : option string;
  tp_status : option jval;
  tp_needs_water : option jval;
  tp_needsWater : option jval
}.
Record TeamData := { plants : option (list TeamPlant) }.

(** A checkup record of GET /v1/plants/:id. *)
Record Checkup := {
  ck_status : option jval;
  ck_needs_watered : option jval;
  ck_needsWatered : option jval
}.

(** Body of GET /v1/plants/:id. *)
Record PlantData := {
  pd_name : option string;
  pd_status : option jval;
  pd_needs_water : option jval;
  pd_needsWater : option jval;
  pd_checkups : option (list Checkup)
}.

(** Everything the Lambda reads from outside, for one invocation.  The
    clock is read as one instant [w_now] (ms since the epoch). *)
Record World := {
  w_now : Z;
  w_apiBaseUrl : string;                      (* PLANT_RANGER_API_BASE_URL *)
  w_staticToken : option string;              (* PLANT_RANGER_API_TOKEN *)
  w_store_get_ok : bool;                      (* dynamodb.get succeeds *)
  w_store_put_ok : bool;                      (* dynamodb.put succeeds *)
  w_credentials : option OAuthCredentials;    (* Secrets Manager read *)
  w_refresh : string -> http TokenResponse;   (* POST tokenUrl, by refresh token *)
  w_health : option string -> http HealthData;        (* by bearer token *)
  w_teams : string -> http TeamsData;                 (* by bearer token *)
  w_team : string -> string -> http TeamData;         (* token, team id *)
  w_plant : string -> string -> http PlantData        (* token, plant id *)
}.

(* ------------------------------------------------------------------ *)
(** ** The state-and-exception monad *)

(** Thrown values: an [Error] built by the code with its message, an
    axios error (response status if any, error code if any), a TypeError
    raised by the runtime, and an AWS SDK error. *)
Inductive Exn :=
| ExnError (msg : string)
| ExnAxios (status : option Z) (code : option string)
| ExnType
| ExnAws.

(** External calls, in the order they are performed. *)
Inductive Effect :=
| EStoreGet (userId : string)
| EStorePut (userId : string) (item : StoreItem)
| ESecretGet
| ERefresh (url : string) (refresh : string)
| EGet (rq : Request).

Record St := {
  st_store : gmap string StoreItem;
  st_trace : list Effect
}.

Inductive Res (A : Type) :=
| Ok (a : A)
| Throw (e : Exn).
Arguments Ok {A} a.
Arguments Throw {A} e.

Definition M (A : Type) := St -> Res A * St.

Definition ret {A} (a : A) : M A := fun s => (Ok a, s).
Definition throw {A} (e : Exn) : M A := fun s => (Throw e, s).
Definition bind {A B} (m : M A) (k : A -> M B) : M B :=
  fun s => match m s with
           | (Ok a, s') => k a s'
           | (Throw e, s') => (Throw e, s')
           end.
(** [try { m } catch (e) { h(e) }]: effects of [m] before the throw stay. *)
Definition try_catch {A} (m : M A) (h : Exn -> M A) : M A :=
  fun s => match m s with
           | (Ok a, s') => (Ok a, s')
           | (Throw e, s') => h e s'
           end.
Definition emit (e : Effect) : M unit :=
  fun s => (Ok tt, {| st_store := st_store s; st_trace := st_trace s ++ [e] |}).

Notation "'let*' x ':=' m 'in' k" := (bind m (fun x => k))
  (at level 200, x name, m at level 100, k at level 200).
Notation "m ;; k" := (bind m (fun _ => k)) (at level 100, right associativity).

(* ------------------------------------------------------------------ *)
(** ** OAuthManager (oauth.ts) *)

Section OAuth.
Variable w : World.

(** [getCredentials]: a fresh [OAuthManager] is built per call of
    [getAccessToken], so the in-memory cache is always empty. *)
Definition getCredentials : M OAuthCredentials :=
  emit ESecretGet ;;
  match w_credentials w with
  | Some c => ret c
  | None => throw ExnAws
  end.

Definition tokens_of_item (it : StoreItem) : StoredTokens := {|
  accessToken := item_token it;
  refreshToken := item_refreshToken it;
  expiresAt := item_expiresAt it;
  tokenType := item_tokenTypeValue it
|}.

(** [getTokens]: a failed read is caught and reported as "no tokens". *)
Definition getTokens (userId : string) : M (option StoredTokens) :=
  emit (EStoreGet userId) ;;
  fun s =>
    if w_store_get_ok w then
      match st_store s !! userId with
      | Some it => (Ok (Some (tokens_of_item it)), s)
      | None => (Ok None, s)
      end
    else (Ok None, s).

(** [refreshAccessToken]: POST to the token URL; a rejection propagates. *)
Definition refreshAccessToken (rt : string) (c : OAuthCredentials)
  : M TokenResponse :=
  emit (ERefresh (tokenUrl c) rt) ;;
  match w_refresh w rt with
  | HOk r => ret r
  | HStatus st => throw (ExnAxios (Some st) None)
  | HNoResponse code => throw (ExnAxios None code)
  end.

(** [updateTokens]: the item written carries no refresh token. *)
Definition refreshed_item (r : TokenResponse) : StoreItem :=
  {| item_token := access_token r;
     item_refreshToken := None;
     item_expiresAt := w_now w + expires_in r * 1000;
     item_tokenTypeValue := token_type r |}.

Definition updateTokens (userId : string) (r : TokenResponse) : M unit :=
  let it := refreshed_item r in
  emit (EStorePut userId it) ;;
  fun s =>
    if w_store_put_ok w then
      (Ok tt, {| st_store := <[userId := it]> (st_store s); st_trace := st_trace s |})
    else (Throw ExnAws, s).

Definition ensureValidTokens (userId : string) (t : StoredTokens) : M StoredTokens :=
  if w_now w >=? expiresAt t then
    match refreshToken t with
    | Some rt =>
        if String.eqb rt "" then throw (ExnError "No refresh token available")
        else
          let* c := getCredentials in
          let* r := refreshAccessToken rt c in
          updateTokens userId r ;;
          ret {| accessToken := access_token r;
                 refreshToken := or_str (refresh_token r) (refreshToken t);
                 expiresAt := w_now w + expires_in r * 1000;
                 tokenType := token_type r |}
    | None => throw (ExnError "No refresh token available")
    end
  else ret t.

End OAuth.

(* ------------------------------------------------------------------ *)
(** ** ApiClient (api-client.ts) *)

Section ApiClient.
Variable w : World.

(** [axios.get(url, { headers, timeout })]: the request is recorded, a
    non-2xx status or a missing response rejects with an axios error. *)
Definition axios_get {A} (rq : Request) (outcome : http A) : M A :=
  emit (EGet rq) ;;
  match outcome with
  | HOk a => ret a
  | HStatus st => throw (ExnAxios (Some st) None)
  | HNoResponse code => throw (ExnAxios None code)
  end.

Definition json_header : string * string := ("Content-Type", "application/json").

Definition bearer (tok : string) : string * string :=
  ("Authorization", "Bearer " ++ tok)%string.

(** The result of [checkPlantHealth]. *)
Record PlantHealthResponse := {
  ph_status : string;
  ph_message : string;
  ph_recommendations : list string
}.

Definition getStatusMessage (status : string) : string :=
  let l := toLowerCase status in
  if String.eqb l "healthy" then
    "Your plants are doing great! They appear to be in excellent health."
  else if String.eqb l "warning" then
    "Your plants need some attention. There are a few issues that should be addressed."
  else if String.eqb l "critical" then
    "Your plants need immediate care. Please check them as soon as possible."
  else "Plant health status is currently unknown. Please check your plants manually.".

Definition getRecommendations (status : string) : list string :=
  let l := toLowerCase status in
  if String.eqb l "healthy" then
    ["Continue your current care routine"; "Monitor soil moisture regularly";
     "Check for pests weekly"]
  else if String.eqb l "warning" then
    ["Check soil moisture levels"; "Ensure adequate lighting";
     "Review watering schedule"; "Check for signs of pests or disease"]
  else if String.eqb l "critical" then
    ["Check soil moisture immediately"; "Inspect for pests or disease";
     "Consider adjusting watering schedule"; "Ensure proper drainage";
     "Check lighting conditions"]
  else
    ["Check soil moisture"; "Inspect plant leaves and stems";
     "Ensure adequate lighting"; "Review watering schedule"].

Definition health_request (accessToken : option string) : Request := {|
  rq_url := (w_apiBaseUrl w ++ "/health")%string;
  rq_headers := json_header ::
    (match accessToken with
     | Some t => if truthy_str accessToken then [bearer t] else []
     | None => []
     end);
  rq_timeout := 10000
|}.

(** The catch block of [checkPlantHealth]. *)
Definition health_error (e : Exn) : Exn :=
  let failed := ExnError "Failed to retrieve plant health data" in
  match e with
  | ExnAxios st code =>
      let server_error := match st with Some st => 500 <=? st | None => false end in
      if server_error then ExnError "Plant health service is temporarily unavailable"
      else match code with
           | Some c => if String.eqb c "ECONNABORTED"
                       then ExnError "Request timeout - please try again" else failed
           | None => failed
           end
  | _ => failed
  end.

Definition checkPlantHealth (accessToken : option string) : M PlantHealthResponse :=
  try_catch
    (let* data := axios_get (health_request accessToken) (w_health w accessToken) in
     (* [response.data.status || 'Unknown']; a non-string status makes
        [status.toLowerCase()] raise a TypeError *)
     match hd_status data with
     | Some (JStr s) =>
         let apiStatus := if String.eqb s "" then "Unknown"%string else s in
         ret {| ph_status := apiStatus; ph_message := getStatusMessage apiStatus;
                ph_recommendations := getRecommendations apiStatus |}
     | v => if truthy v then throw ExnType
            else ret {| ph_status := "Unknown"; ph_message := getStatusMessage "Unknown";
                        ph_recommendations := getRecommendations "Unknown" |}
     end)
    (fun e => throw (health_error e)).

Definition teams_request (accessToken : string) : Request := {|
  rq_url := (w_apiBaseUrl w ++ "/v1/teams")%string;
  rq_headers := [json_header; bearer accessToken];
  rq_timeout := 10000
|}.

Definition teams_error (e : Exn) : Exn :=
  match e with
  | ExnAxios (Some 401) _ => ExnError "Unauthorized - please link your account"
  | _ => ExnError "Failed to retrieve teams"
  end.

Definition getTeams (accessToken : string) : M TeamsData :=
  try_catch (axios_get (teams_request accessToken) (w_teams w accessToken))
            (fun e => throw (teams_error e)).

Definition team_request (accessToken teamId : string) : Request := {|
  rq_url := (w_apiBaseUrl w ++ "/v1/teams/" ++ teamId)%string;
  rq_headers := [json_header; bearer accessToken];
  rq_timeout := 10000
|}.

Definition team_error (e : Exn) : Exn :=
  match e with
  | ExnAxios (Some 404) _ => ExnError "Team not found"
  | ExnAxios (Some 401) _ => ExnError "Unauthorized - please link your account"
  | _ => ExnError "Failed to retrieve team details"
  end.

Definition getTeamDetails (accessToken teamId : string) : M TeamData :=
  try_catch (axios_get (team_request accessToken teamId) (w_team w accessToken teamId))
            (fun e => throw (team_error e)).

Definition plant_request (accessToken plantId : string) : Request := {|
  rq_url := (w_apiBaseUrl w ++ "/v1/plants/" ++ plantId)%string;
  rq_headers := [json_header; bearer accessToken];
  rq_timeout := 10000
|}.

Definition plant_error (e : Exn) : Exn :=
  match e with
  | ExnAxios (Some 404) _ => ExnError "Plant not found"
  | ExnAxios (Some 401) _ => ExnError "Unauthorized - please link your account"
  | _ => ExnError "Failed to retrieve plant details"
  end.

Definition getPlantDetails (accessToken plantId : string) : M PlantData :=
  try_catch (axios_get (plant_request accessToken plantId) (w_plant w accessToken plantId))
            (fun e => throw (plant_error e)).

End ApiClient.

(* ------------------------------------------------------------------ *)
(** ** The inbound event and getAccessToken (alexa-handler.ts) *)

(** The [TeamName] slot: its [value] and the first resolution's name/id. *)
Record Slot := {
  slot_value : option string;
  slot_res_name : option string;
  slot_res_id : option string
}.

Record Intent := {
  intent_name : string;
  intent_teamName : option Slot
}.

(** The fields of [AlexaRequest] the handler reads. *)
Record AlexaRequest := {
  ctx_userId : option string;
  ctx_accessToken : option string;     (* context.System.user.accessToken *)
  session_userId : option string;
  session_accessToken : option string; (* session.user.accessToken *)
  request_type : string;
  request_intent : option Intent
}.

Section Handler.
Variable w : World.

Definition getAccessToken (request : AlexaRequest) (userId : string)
  : M (option string) :=
  let tokenFromRequest := or_str (ctx_accessToken request) (session_accessToken request) in
  if truthy_str tokenFromRequest then ret tokenFromRequest
  else
    let* tokens := getTokens w userId in
    match tokens with
    | Some t =>
        let* v := ensureValidTokens w userId t in
        ret (Some (accessToken v))
    | None =>
        if truthy_str (w_staticToken w) then ret (w_staticToken w) else ret None
    end.

(** [interface AlexaResponse]: spoken text, card, reprompt text and the
    session flag ([version] is always '1.0' and is left out). *)
Record Card := {
  card_type : string;
  card_title : option string;
  card_content : option string
}.

Record AlexaResponse := {
  outputSpeech : option string;
  card : option Card;
  reprompt : option string;
  shouldEndSession : bool
}.

Definition createErrorResponse (message : string) : AlexaResponse := {|
  outputSpeech := Some message; card := None; reprompt := None;
  shouldEndSession := true |}.

Definition nl : string := String (ascii_of_nat 10) EmptyString.

Definition LinkAccountCard : Card := {|
  card_type := "LinkAccount"; card_title := None; card_content := None |}.

Definition health_link_response : AlexaResponse := {|
  outputSpeech := Some "To check your plant health, you need to link your Plant Ranger account first. Please visit the Alexa app to complete the account linking process.";
  card := Some LinkAccountCard; reprompt := None; shouldEndSession := true |}.

Definition status_link_text : string :=
  "To check your plant status, you need to link your Plant Ranger account first. Please visit the Alexa app to complete the account linking process.".

Definition status_link_response : AlexaResponse := {|
  outputSpeech := Some status_link_text;
  card := Some LinkAccountCard; reprompt := None; shouldEndSession := true |}.

(** The [catch] of the list handlers for an 'Unauthorized' error: no card. *)
Definition status_unauthorized_response : AlexaResponse := {|
  outputSpeech := Some status_link_text;
  card := None; reprompt := None; shouldEndSession := true |}.

Definition no_teams_response : AlexaResponse := {|
  outputSpeech := Some "You don't have any teams set up yet. Please add a team in the Plant Ranger app first.";
  card := None; reprompt := None; shouldEndSession := true |}.

(** [error instanceof Error && error.message.includes('Unauthorized')]; the
    messages of axios, AWS and runtime errors never contain the word. *)
Definition is_unauthorized (e : Exn) : bool :=
  match e with
  | ExnError msg => includes msg "Unauthorized"
  | _ => false
  end.

(** The success response of [handleCheckPlantHealth]. *)
Definition health_response (ph : PlantHealthResponse) : AlexaResponse := {|
  outputSpeech := Some (ph_status ph);
  card := Some {| card_type := "Simple"; card_title := Some "Plant Health Check";
                  card_content := Some ("Status: " ++ ph_status ph)%string |};
  reprompt := None; shouldEndSession := true |}.

(** The inner [try]/[catch] of the unauthenticated call: it answers with a
    link-account card when the error carries a 401 or 403 [response]. *)
Definition unauthenticated_health_error (e : Exn) : M (PlantHealthResponse + AlexaResponse) :=
  match e with
  | ExnAxios (Some st) _ =>
      if ((st =? 401) || (st =? 403))%bool then ret (inr health_link_response)
      else throw e
  | _ => throw e
  end.

Definition handleCheckPlantHealth (userId : string) (request : AlexaRequest)
  : M AlexaResponse :=
  try_catch
    (let* tok := getAccessToken request userId in
     let* r :=
       (if truthy_str tok then
          let* ph := checkPlantHealth w tok in ret (inl ph)
        else
          try_catch (let* ph := checkPlantHealth w None in ret (inl ph))
                    unauthenticated_health_error) in
     match r with
     | inl ph => ret (health_response ph)
     | inr resp => ret resp
     end)
    (fun _ => ret (createErrorResponse
       "Sorry, I couldn't check your plant health right now. Please try again later.")).

(** An entry of [allPlants] / [teamPlants]. *)
Record PlantStatus := {
  ps_name : string;
  ps_id : string;
  ps_needsWatered : bool
}.

(** The watering-need chain of [handleListPlantStatus]: team summary,
    then (only if it says nothing) the plant details and their latest
    checkup. *)
Definition list_needs_water (tok : string) (plant : TeamPlant) : M bool :=
  if (is_jstr (tp_status plant) "needs_water" || is_jstr (tp_status plant) "needs water")%bool
  then ret true
  else if (is_jtrue (tp_needs_water plant) || is_jtrue (tp_needsWater plant))%bool
  then ret true
  else
    let* pd := getPlantDetails w tok (tp_id plant) in
    ret (if (is_jstr (pd_status pd) "needs_water" || is_jstr (pd_status pd) "needs water")%bool
         then true
         else if (is_jtrue (pd_needs_water pd) || is_jtrue (pd_needsWater pd))%bool
         then true
         else match default [] (pd_checkups pd) with
              | latest :: _ =>
                  (is_jstr (ck_status latest) "needs_water" ||
                   is_jstr (ck_status latest) "needs water" ||
                   is_jtrue (ck_needs_watered latest) ||
                   is_jtrue (ck_needsWatered latest))%bool
              | [] => false
              end).

(** The inner loop of [handleListPlantStatus]: a failing plant is skipped. *)
Fixpoint collect_plants (tok : string) (ps : list TeamPlant) (allPlants : list PlantStatus)
  : M (list PlantStatus) :=
  match ps with
  | [] => ret allPlants
  | plant :: rest =>
      let* allPlants' :=
        try_catch
          (let* needsWatered := list_needs_water tok plant in
           ret (allPlants ++ [{| ps_name := str_or (tp_name plant) "Unnamed Plant";
                                 ps_id := tp_id plant;
                                 ps_needsWatered := needsWatered |}]))
          (fun _ => ret allPlants) in
      collect_plants tok rest allPlants'
  end.

(** The outer loop of [handleListPlantStatus]: a failing team is skipped. *)
Fixpoint collect_teams (tok : string) (ts : list Team) (allPlants : list PlantStatus)
  : M (list PlantStatus) :=
  match ts with
  | [] => ret allPlants
  | team :: rest =>
      let* allPlants' :=
        try_catch
          (let* teamDetails := getTeamDetails w tok (team_id team) in
           collect_plants tok (default [] (plants teamDetails)) allPlants)
          (fun _ => ret allPlants) in
      collect_teams tok rest allPlants'
  end.

Definition names (ps : list PlantStatus) : string := join (map ps_name ps).

Definition needing (ps : list PlantStatus) : list PlantStatus :=
  filter ps_needsWatered ps.
Definition not_needing (ps : list PlantStatus) : list PlantStatus :=
  filter (fun p => negb (ps_needsWatered p)) ps.

Definition plural_need (n : nat) : string :=
  if Nat.eqb n 1 then " needs" else "s need".

Definition status_card_content (total : list PlantStatus) : string :=
  let w' := needing total in
  ("Total Plants: " ++ show_nat (length total) ++ nl ++
   "Needs Water: " ++ show_nat (length w') ++ nl ++
   (if Nat.ltb 0 (length w') then "Plants needing water: " ++ names w'
    else "All plants are doing well!"))%string.

Definition list_status_response (allPlants : list PlantStatus) : AlexaResponse :=
  let w' := needing allPlants in
  let message :=
    if Nat.ltb 0 (length w') then
      (show_nat (length w') ++ " plant" ++ plural_need (length w') ++ " water: " ++ names w')%string
    else
      ("None of your " ++ show_nat (length allPlants) ++ " plant" ++
       plural_need (length allPlants) ++ " water right now. All your plants are doing fine!")%string in
  {| outputSpeech := Some message;
     card := Some {| card_type := "Simple"; card_title := Some "Plant Status";
                     card_content := Some (status_card_content allPlants) |};
     reprompt := None; shouldEndSession := true |}.

Definition no_plants_response : AlexaResponse := {|
  outputSpeech := Some "You don't have any plants set up yet. Please add plants to your teams in the Plant Ranger app.";
  card := None; reprompt := None; shouldEndSession := true |}.

(** The outer [catch] of [handleListPlantStatus]. *)
Definition list_status_catch (e : Exn) : M AlexaResponse :=
  if is_unauthorized e then ret status_unauthorized_response
  else ret (createErrorResponse
    "Sorry, I couldn't retrieve your plant status right now. Please try again later.").

Definition handleListPlantStatus (userId : string) (request : AlexaRequest)
  : M AlexaResponse :=
  try_catch
    (let* tok := getAccessToken request userId in
     match tok with
     | Some t =>
         if String.eqb t "" then ret status_link_response
         else
           let* teamsResponse := getTeams w t in
           match default [] (teams teamsResponse) with
           | [] => ret no_teams_response
           | ts =>
               let* allPlants := collect_teams t ts [] in
               match allPlants with
               | [] => ret no_plants_response
               | _ => ret (list_status_response allPlants)
               end
           end
     | None => ret status_link_response
     end)
    list_status_catch.

(** [${matchingTeam.name}] in a template literal. *)
Definition show_name (o : option string) : string :=
  match o with Some s => s | None => "undefined" end.

(** A double quote character. *)
Definition dq : string := String (ascii_of_nat 34) EmptyString.

Definition ask_team_response : AlexaResponse := {|
  outputSpeech := Some "Which team would you like to check? Please tell me the name of the team or group.";
  card := None;
  reprompt := Some ("Please say the name of the team you want to check, for example " ++ dq ++
    "check plants in kitchen" ++ dq ++ " or " ++ dq ++ "what plants need water in office" ++ dq ++ ".")%string;
  shouldEndSession := false |}.

(** The predicate passed to [teams.find]. *)
Definition team_matches (normalizedTeamName : string) (team : Team) : bool :=
  let teamNameLower := toLowerCase (str_or (team_name team) "") in
  (includes teamNameLower normalizedTeamName ||
   includes normalizedTeamName teamNameLower ||
   String.eqb teamNameLower normalizedTeamName)%bool.

Definition normalize_team_name (teamName : string) : string :=
  strip_team_prefix (trim (toLowerCase teamName)).

Definition team_names (ts : list Team) : string :=
  join (map (fun t => str_or (team_name t) "Unnamed Team") ts).

Definition team_not_found_response (teamName : string) (ts : list Team) : AlexaResponse := {|
  outputSpeech := Some ("I couldn't find a team named " ++ dq ++ teamName ++ dq ++
    ". Your available teams are: " ++ team_names ts ++
    ". Please try again with one of these team names.")%string;
  card := None;
  reprompt := Some ("Which team would you like to check? Your teams are: " ++ team_names ts ++ ".")%string;
  shouldEndSession := false |}.

Definition team_no_plants_response (team : Team) : AlexaResponse := {|
  outputSpeech := Some ("The " ++ show_name (team_name team) ++ " team doesn't have any plants set up yet.")%string;
  card := None; reprompt := None; shouldEndSession := true |}.

Definition team_retrieve_failed_response (team : Team) : AlexaResponse := {|
  outputSpeech := Some ("I couldn't retrieve the plant details for " ++ show_name (team_name team) ++ ". Please try again later.")%string;
  card := None; reprompt := None; shouldEndSession := true |}.

(** The watering-need rule of [handleCheckTeamPlantStatus]: always from the
    plant details, [needsWatered] used for its truthiness. *)
Definition team_needs_water (pd : PlantData) : bool :=
  if is_jstr (pd_status pd) "needs_water" then true
  else match default [] (pd_checkups pd) with
       | latest :: _ =>
           (is_jstr (ck_status latest) "needs_water" ||
            truthy (ck_needs_watered latest) ||
            truthy (ck_needsWatered latest))%bool
       | [] => false
       end.

Fixpoint collect_team_plants (tok : string) (ps : list TeamPlant) (teamPlants : list PlantStatus)
  : M (list PlantStatus) :=
  match ps with
  | [] => ret teamPlants
  | plant :: rest =>
      let* teamPlants' :=
        try_catch
          (let* plantDetails := getPlantDetails w tok (tp_id plant) in
           ret (teamPlants ++
                [{| ps_name := str_or (or_str (pd_name plantDetails) (tp_name plant)) "Unnamed Plant";
                    ps_id := tp_id plant;
                    ps_needsWatered := team_needs_water plantDetails |}]))
          (fun _ => ret teamPlants) in
      collect_team_plants tok rest teamPlants'
  end.

Definition team_status_response (team : Team) (teamPlants : list PlantStatus) : AlexaResponse :=
  let nm := show_name (team_name team) in
  let w' := needing teamPlants in
  let f := not_needing teamPlants in
  let head := ("In " ++ nm ++ ", you have " ++ show_nat (length teamPlants) ++ " plant" ++
               (if Nat.eqb (length teamPlants) 1 then "" else "s") ++ ". ")%string in
  let message :=
    if Nat.ltb 0 (length w') then
      (head ++ show_nat (length w') ++ " plant" ++ plural_need (length w') ++ " water: " ++
       names w' ++
       (if Nat.ltb 0 (length f) then
          ". " ++ show_nat (length f) ++ " plant" ++
          (if Nat.eqb (length f) 1 then " is" else "s are") ++ " doing fine: " ++ names f
        else ""))%string
    else (head ++ "All plants in " ++ nm ++ " are doing fine! " ++ names f)%string in
  {| outputSpeech := Some message;
     card := Some {| card_type := "Simple"; card_title := Some ("Plant Status - " ++ nm)%string;
                     card_content := Some (status_card_content teamPlants) |};
     reprompt := None; shouldEndSession := true |}.

(** The part of [handleCheckTeamPlantStatus] after the team lookup. *)
Definition check_matched_team (tok : string) (matchingTeam : Team) : M AlexaResponse :=
  let* teamDetails := getTeamDetails w tok (team_id matchingTeam) in
  match default [] (plants teamDetails) with
  | [] => ret (team_no_plants_response matchingTeam)
  | ps =>
      let* teamPlants := collect_team_plants tok ps [] in
      match teamPlants with
      | [] => ret (team_retrieve_failed_response matchingTeam)
      | _ => ret (team_status_response matchingTeam teamPlants)
      end
  end.

(** The outer [catch] of [handleCheckTeamPlantStatus]. *)
Definition team_status_catch (e : Exn) : M AlexaResponse :=
  if is_unauthorized e then ret status_unauthorized_response
  else ret (createErrorResponse
    "Sorry, I couldn't retrieve the plant status for that team right now. Please try again later.").

Definition handleCheckTeamPlantStatus (userId : string) (teamName : option string)
  (request : AlexaRequest) : M AlexaResponse :=
  try_catch
    (let* tok := getAccessToken request userId in
     match tok with
     | None => ret status_link_response
     | Some t =>
         if String.eqb t "" then ret status_link_response
         else match teamName with
              | None => ret ask_team_response
              | Some tn =>
                  if String.eqb (trim tn) "" then ret ask_team_response
                  else
                    let* teamsResponse := getTeams w t in
                    match default [] (teams teamsResponse) with
                    | [] => ret no_teams_response
                    | ts =>
                        match find (team_matches (normalize_team_name tn)) ts with
                        | None => ret (team_not_found_response tn ts)
                        | Some matchingTeam => check_matched_team t matchingTeam
                        end
                    end
              end
     end)
    team_status_catch.

Definition fallback_teams_response (teamNames : string) : AlexaResponse := {|
  outputSpeech := Some ("I didn't quite understand. Which team would you like to check? Your teams are: " ++
    teamNames ++ ". Please say something like " ++ dq ++ "check plants in" ++ dq ++
    " followed by the team name.")%string;
  card := None;
  reprompt := Some ("Which team? Your teams are: " ++ teamNames ++ ".")%string;
  shouldEndSession := false |}.

Definition fallback_generic_response : AlexaResponse := {|
  outputSpeech := Some ("I didn't understand. Try saying " ++ dq ++ "what plants need water in" ++ dq ++
    " followed by your team name, or " ++ dq ++ "list my plant status" ++ dq ++ " to see all plants.")%string;
  card := None;
  reprompt := Some ("Say " ++ dq ++ "what plants need water in" ++ dq ++ " followed by your team name.")%string;
  shouldEndSession := false |}.

(** The [AMAZON.FallbackIntent] branch of [handleIntentRequest]. *)
Definition handleFallbackIntent (userId : string) (request : AlexaRequest) : M AlexaResponse :=
  let* found :=
    try_catch
      (let* tok := getAccessToken request userId in
       match tok with
       | Some t =>
           if String.eqb t "" then ret None
           else
             let* teamsResponse := getTeams w t in
             match default [] (teams teamsResponse) with
             | [] => ret None
             | ts => ret (Some (fallback_teams_response (team_names ts)))
             end
       | None => ret None
       end)
      (fun _ => ret None) in
  match found with
  | Some r => ret r
  | None => ret fallback_generic_response
  end.

Definition handleLaunchRequest : AlexaResponse := {|
  outputSpeech := Some ("Welcome to Plant Ranger Check! I can help you check the health of your plants. Just say " ++
    dq ++ "check my plant health" ++ dq ++ " to get started.")%string;
  card := None;
  reprompt := Some ("You can say " ++ dq ++ "check my plant health" ++ dq ++
    " to check your plant status, or " ++ dq ++ "help" ++ dq ++ " for more information.")%string;
  shouldEndSession := false |}.

Definition handleHelpIntent : AlexaResponse := {|
  outputSpeech := Some ("Plant Ranger Check can help you monitor your plant health. You can say " ++
    dq ++ "check my plant health" ++ dq ++ " to get a status update, " ++
    dq ++ "list my plant status" ++ dq ++ " to see which plants need water, or " ++
    dq ++ "check plants in [team name]" ++ dq ++ " to check a specific team. You can also say " ++
    dq ++ "stop" ++ dq ++ " to end the session.")%string;
  card := None;
  reprompt := Some ("What would you like to do? You can say " ++ dq ++ "check my plant health" ++ dq ++
    ", " ++ dq ++ "list my plant status" ++ dq ++ ", " ++ dq ++ "check plants in [team name]" ++ dq ++
    ", or " ++ dq ++ "help" ++ dq ++ " for more information.")%string;
  shouldEndSession := false |}.

Definition handleStopIntent : AlexaResponse := {|
  outputSpeech := Some "Goodbye! Take care of your plants!";
  card := None; reprompt := None; shouldEndSession := true |}.

Definition handleSessionEndedRequest : AlexaResponse := {|
  outputSpeech := None; card := None; reprompt := None; shouldEndSession := true |}.

(** [teamNameSlot.value || ...resolutions...name || ...resolutions...id]. *)
Definition slot_team_name (slot : option Slot) : option string :=
  match slot with
  | Some sl => or_str (slot_value sl) (or_str (slot_res_name sl) (slot_res_id sl))
  | None => None
  end.

Definition handleIntentRequest (intent : Intent) (userId : string) (request : AlexaRequest)
  : M AlexaResponse :=
  let n := intent_name intent in
  if String.eqb n "CheckTeamPlantStatusIntent" then
    handleCheckTeamPlantStatus userId (slot_team_name (intent_teamName intent)) request
  else if String.eqb n "CheckPlantHealthIntent" then handleCheckPlantHealth userId request
  else if String.eqb n "ListPlantStatusIntent" then handleListPlantStatus userId request
  else if String.eqb n "AMAZON.FallbackIntent" then handleFallbackIntent userId request
  else if String.eqb n "AMAZON.HelpIntent" then ret handleHelpIntent
  else if (String.eqb n "AMAZON.StopIntent" || String.eqb n "AMAZON.CancelIntent")%bool
  then ret handleStopIntent
  else ret (createErrorResponse "I didn't understand that. Please try again.").

Definition handleAlexaRequest (request : AlexaRequest) : M AlexaResponse :=
  let userId := str_or (or_str (session_userId request) (ctx_userId request)) "unknown" in
  let ty := request_type request in
  if String.eqb ty "LaunchRequest" then ret handleLaunchRequest
  else if String.eqb ty "IntentRequest" then
    match request_intent request with
    | Some i => handleIntentRequest i userId request
    | None => throw ExnType   (* [intent.name] on an undefined intent *)
    end
  else if String.eqb ty "SessionEndedRequest" then ret handleSessionEndedRequest
  else ret (createErrorResponse "Unknown request type").

End Handler.


(** The error kinds named by the spec (Unauthorized, NotFound,
    ServiceUnavailable, Timeout, generic Failed), read off the messages the
    API client throws. *)
Inductive ErrKind := Unauthorized | NotFound | ServiceUnavailable | Timeout | Failed.

Definition error_kind (e : Exn) : ErrKind :=
  match e with
  | ExnError m =>
      if String.eqb m "Unauthorized - please link your account" then Unauthorized
      else if (String.eqb m "Team not found" || String.eqb m "Plant not found")%bool then NotFound
      else if String.eqb m "Plant health service is temporarily unavailable" then ServiceUnavailable
      else if String.eqb m "Request timeout - please try again" then Timeout
      else Failed
  | _ => Failed
  end.

(** The kind the spec assigns to a failed HTTP outcome, for every call. *)
Definition spec_kind {A} (o : http A) : option ErrKind :=
  match o with
  | HOk _ => None
  | HStatus 401 => Some Unauthorized
  | HStatus 404 => Some NotFound
  | HStatus st => Some (if 500 <=? st then ServiceUnavailable else Failed)
  | HNoResponse (Some c) => Some (if String.eqb c "ECONNABORTED" then Timeout else Failed)
  | HNoResponse None => Some Failed
  end.

(** The kinds each call of the API client actually distinguishes. *)
Definition health_kind {A} (o : http A) : ErrKind :=
  match o with
  | HStatus st => if 500 <=? st then ServiceUnavailable else Failed
  | HNoResponse (Some c) => if String.eqb c "ECONNABORTED" then Timeout else Failed
  | _ => Failed
  end.

Definition teams_kind {A} (o : http A) : ErrKind :=
  match o with
  | HStatus st => if st =? 401 then Unauthorized else Failed
  | _ => Failed
  end.

Definition details_kind {A} (o : http A) : ErrKind :=
  match o with
  | HStatus st => if st =? 404 then NotFound else if st =? 401 then Unauthorized else Failed
  | _ => Failed
  end.

(** A plant-details record that says nothing about watering: no status, no
    needs-water flag, and a latest checkup (if any) with no status or flag. *)
Definition details_silent (pd : PlantData) : Prop :=
  pd_status pd = None /\ pd_needs_water pd = None /\ pd_needsWater pd = None /\
  forall c rest, default [] (pd_checkups pd) = c :: rest ->
    ck_status c = None /\ ck_needs_watered c = None /\ ck_needsWatered c = None.

(** A team-summary plant entry that says nothing about watering. *)
Definition summary_silent (p : TeamPlant) : Prop :=
  tp_status p = None /\ tp_needs_water p = None /\ tp_needsWater p = None.

(** The team summary already says the plant needs water. *)
Definition summary_says_needs_water (p : TeamPlant) : bool :=
  (is_jstr (tp_status p) "needs_water" || is_jstr (tp_status p) "needs water" ||
   is_jtrue (tp_needs_water p) || is_jtrue (tp_needsWater p))%bool.

(** The same world with another answer for GET /v1/teams. *)
Definition with_teams (w : World) (ts : list Team) : World := {|
  w_now := w_now w; w_apiBaseUrl := w_apiBaseUrl w; w_staticToken := w_staticToken w;
  w_store_get_ok := w_store_get_ok w; w_store_put_ok := w_store_put_ok w;
  w_credentials := w_credentials w; w_refresh := w_refresh w;
  w_health := w_health w; w_teams := fun _ => HOk {| teams := Some ts |};
  w_team := w_team w; w_plant := w_plant w |}.

(* ------------------------------------------------------------------ *)
(** ** Sample worlds *)

(** Response invariants: every normal result of [m] satisfies [P]
    (thrown values are not constrained). *)
Definition safe {A} (P : A -> Prop) (m : M A) : Prop :=
  forall s, match fst (m s) with Ok a => P a | Throw _ => True end.

(** [m] never throws and its result satisfies [P]. *)
Definition total {A} (P : A -> Prop) (m : M A) : Prop :=
  forall s, exists a s', m s = (Ok a, s') /\ P a.

Definition ends_session (r : AlexaResponse) : Prop := shouldEndSession r = true.

(** A well-formed answer: it speaks a non-empty text, and it keeps the
    session open exactly when it carries a reprompt. *)
Definition response_ok (r : AlexaResponse) : Prop :=
  (exists text, outputSpeech r = Some text /\ text <> ""%string) /\
  shouldEndSession r = negb (match reprompt r with Some _ => true | None => false end).

(* ------------------------------------------------------------------ *)
(** ** Token storage, recommendations and the Lambda entry point *)

(** The same world at another instant ([Date.now()]). *)
Definition with_now (w : World) (t : Z) : World := {|
  w_now := t; w_apiBaseUrl := w_apiBaseUrl w; w_staticToken := w_staticToken w;
  w_store_get_ok := w_store_get_ok w; w_store_put_ok := w_store_put_ok w;
  w_credentials := w_credentials w; w_refresh := w_refresh w;
  w_health := w_health w; w_teams := w_teams w; w_team := w_team w;
  w_plant := w_plant w |}.

(** The item [storeToken] writes: valid for 365 days, no refresh token. *)
Definition manual_item (w : World) (token : string) : StoreItem := {|
  item_token := token;
  item_refreshToken := None;
  item_expiresAt := w_now w + 365 * 24 * 60 * 60 * 1000;
  item_tokenTypeValue := "Bearer" |}.

(** [OAuthManager.storeToken]: one [dynamodb.put] replacing the user's item. *)
Definition storeToken (w : World) (userId token : string) : M unit :=
  let it := manual_item w token in
  emit (EStorePut userId it) ;;
  fun s =>
    if w_store_put_ok w then
      (Ok tt, {| st_store := <[userId := it]> (st_store s); st_trace := st_trace s |})
    else (Throw ExnAws, s).

(** The body of GET /plants/recommendations. *)
Record RecommendationsData := {
  recommendations : option (list string)
}.

Definition recommendations_request (w : World) : Request := {|
  rq_url := (w_apiBaseUrl w ++ "/plants/recommendations")%string;
  rq_headers := [json_header];
  rq_timeout := 10000
|}.

(** [ApiClient.getPlantRecommendations]; [answer] is the outcome of its GET,
    which carries no token. *)
Definition getPlantRecommendations (w : World) (answer : http RecommendationsData)
  (accessToken : string) : M (list string) :=
  try_catch
    (let* data := axios_get (recommendations_request w) answer in
     ret (default [] (recommendations data)))
    (fun _ => ret ["Unable to retrieve recommendations at this time"%string]).

(** The value the exported [handler] treats as the Alexa request: the
    [JSON.parse] of a string body, an object body as it is, or otherwise
    the event itself. [None] stands for a body [JSON.parse] rejects or a
    value without a [request] object (then [handleAlexaRequest] raises a
    TypeError on [alexaRequest.type]). *)
Inductive EventBody :=
| BodyString (parsed : option AlexaRequest)
| BodyObject (value : option AlexaRequest)
| NoBody.

Record LambdaEvent := {
  ev_body : EventBody;
  ev_self : option AlexaRequest;
  ev_resource : bool            (* hasOwnProperty('resource'): API Gateway proxy *)
}.

Definition event_request (e : LambdaEvent) : option AlexaRequest :=
  match ev_body e with
  | BodyString parsed => parsed
  | BodyObject value => value
  | NoBody => ev_self e
  end.

(** What [handler] returns: the response itself, or an API Gateway proxy
    result whose body is [JSON.stringify] of the response. *)
Inductive HandlerResult :=
| Direct (response : AlexaResponse)
| Proxy (statusCode : Z) (headers : list (string * string)) (body : AlexaResponse).

Definition wrap (e : LambdaEvent) (r : AlexaResponse) : HandlerResult :=
  if ev_resource e then Proxy 200 [json_header] r else Direct r.

Definition handler_error_text : string :=
  "Sorry, I encountered an error while processing your request. Please try again later.".

(** The exported [handler] of alexa-handler.ts. *)
Definition handler (w : World) (e : LambdaEvent) : M HandlerResult :=
  try_catch
    (match event_request e with
     | Some request =>
         let* response := handleAlexaRequest w request in
         ret (wrap e response)
     | None => throw ExnType
     end)
    (fun _ => ret (wrap e (createErrorResponse handler_error_text))).

Module Samples.

Definition kitchen : Team := {| team_id := "k1"; team_name := Some "kitchen" |}.
Definition office : Team := {| team_id := "o1"; team_name := Some "office" |}.
Definition kitchen_garden : Team := {| team_id := "g1"; team_name := Some "Kitchen Garden" |}.
Definition nameless : Team := {| team_id := "n1"; team_name := None |}.

Definition fern : TeamPlant := {| tp_id := "p1"; tp_name := Some "fern";
  tp_status := Some (JStr "needs_water"); tp_needs_water := None; tp_needsWater := None |}.
Definition cactus : TeamPlant := {| tp_id := "p2"; tp_name := Some "cactus";
  tp_status := None; tp_needs_water := None; tp_needsWater := None |}.
Definition ivy : TeamPlant := {| tp_id := "p3"; tp_name := Some "ivy";
  tp_status := None; tp_needs_water := None; tp_needsWater := None |}.

Definition bare_details : PlantData := {| pd_name := None; pd_status := None;
  pd_needs_water := None; pd_needsWater := None; pd_checkups := None |}.

(** A world where every external call succeeds except the ones named. *)
Definition world (ts : list Team) (health : http HealthData) (team : string -> http TeamData)
  (static : option string) (get_ok : bool) : World := {|
  w_now := 1000;
  w_apiBaseUrl := "https://api.plantranger.com";
  w_staticToken := static;
  w_store_get_ok := get_ok;
  w_store_put_ok := true;
  w_credentials := Some {| clientId := "id"; clientSecret := "secret"; authUrl := "https://auth";
                           tokenUrl := "https://auth/token"; apiBaseUrl := "https://api.plantranger.com" |};
  w_refresh := fun rt => HOk {| access_token := "fresh"; refresh_token := None;
                                expires_in := 3600; token_type := "Bearer" |};
  w_health := fun _ => health;
  w_teams := fun _ => HOk {| teams := Some ts |};
  w_team := fun _ id => team id;
  w_plant := fun _ _ => HOk bare_details
|}.

Definition two_teams (id : string) : http TeamData :=
  if String.eqb id "k1" then HOk {| plants := Some [fern; cactus] |}
  else HStatus 500.

(** An event carrying no token, from user "u". *)
Definition event (ty : string) (i : option Intent) (tok : option string) : AlexaRequest := {|
  ctx_userId := Some "u"; ctx_accessToken := tok;
  session_userId := Some "u"; session_accessToken := None;
  request_type := ty; request_intent := i |}.

(** Every remote endpoint answers 500. *)
Definition w500 : World := {|
  w_now := 0; w_apiBaseUrl := "https://api.plantranger.com"; w_staticToken := None;
  w_store_get_ok := true; w_store_put_ok := true; w_credentials := None;
  w_refresh := fun _ => HStatus 400; w_health := fun _ => HStatus 500;
  w_teams := fun _ => HStatus 500; w_team := fun _ _ => HStatus 500;
  w_plant := fun _ _ => HStatus 500 |}.

Definition empty_st : St := {| st_store := ∅; st_trace := [] |}.

Definition expired_item : StoreItem := {| item_token := "old"; item_refreshToken := Some "r";
  item_expiresAt := 500; item_tokenTypeValue := "Bearer" |}.

Definition valid_item : StoreItem := {| item_token := "old"; item_refreshToken := None;
  item_expiresAt := 5000; item_tokenTypeValue := "Bearer" |}.

Definition dead_item : StoreItem := {| item_token := "old"; item_refreshToken := None;
  item_expiresAt := 500; item_tokenTypeValue := "Bearer" |}.

Definition stored_st (it : StoreItem) : St :=
  {| st_store := <["u" := it]> ∅; st_trace := [] |}.

End Samples.

(* ------------------------------------------------------------------ *)
(** ** Monad lemmas *)

Definition add_trace (s : St) (es : list Effect) : St :=
  {| st_store := st_store s; st_trace := st_trace s ++ es |}.

Lemma bind_ok {A B} (m : M A) (k : A -> M B) s a s' :
  m s = (Ok a, s') -> bind m k s = k a s'.
Proof. intros H. unfold bind. now rewrite H. Qed.

Lemma bind_throw {A B} (m : M A) (k : A -> M B) s e s' :
  m s = (Throw e, s') -> bind m k s = (Throw e, s').
Proof. intros H. unfold bind. now rewrite H. Qed.

Lemma try_ok {A} (m : M A) h s a s' :
  m s = (Ok a, s') -> try_catch m h s = (Ok a, s').
Proof. intros H. unfold try_catch. now rewrite H. Qed.

Lemma try_throw {A} (m : M A) h s e s' :
  m s = (Throw e, s') -> try_catch m h s = h e s'.
Proof. intros H. unfold try_catch. now rewrite H. Qed.

Lemma try_bind_ok {A B} (m : M A) (k : A -> M B) h s a s' :
  m s = (Ok a, s') -> try_catch (bind m k) h s = try_catch (k a) h s'.
Proof. intros H. unfold try_catch, bind. now rewrite H. Qed.

Lemma add_trace_app s es1 es2 :
  add_trace (add_trace s es1) es2 = add_trace s (es1 ++ es2).
Proof. unfold add_trace. simpl. now rewrite app_assoc. Qed.

(* ------------------------------------------------------------------ *)
(** ** Credential resolution *)

(** The event carries no usable token of its own. *)
Definition no_embedded_token (req : AlexaRequest) : Prop :=
  truthy_str (or_str (ctx_accessToken req) (session_accessToken req)) = false.

(** The same world with another [PLANT_RANGER_API_TOKEN]. *)
Definition with_static (w : World) (tok : option string) : World := {|
  w_now := w_now w; w_apiBaseUrl := w_apiBaseUrl w; w_staticToken := tok;
  w_store_get_ok := w_store_get_ok w; w_store_put_ok := w_store_put_ok w;
  w_credentials := w_credentials w; w_refresh := w_refresh w;
  w_health := w_health w; w_teams := w_teams w; w_team := w_team w;
  w_plant := w_plant w |}.

Lemma getAccessToken_embedded w req uid s :
  truthy_str (or_str (ctx_accessToken req) (session_accessToken req)) = true ->
  getAccessToken w req uid s = (Ok (or_str (ctx_accessToken req) (session_accessToken req)), s).
Proof. intros H. unfold getAccessToken. now rewrite H. Qed.

Lemma getAccessToken_no_record w req uid s :
  no_embedded_token req ->
  (w_store_get_ok w = false \/ st_store s !! uid = None) ->
  getAccessToken w req uid s =
  (Ok (if truthy_str (w_staticToken w) then w_staticToken w else None),
   add_trace s [EStoreGet uid]).
Proof.
  unfold no_embedded_token. intros Hno Hrec.
  unfold getAccessToken. rewrite Hno.
  unfold bind, getTokens, emit, bind, ret. simpl.
  destruct Hrec as [Hg | Hr].
  - rewrite Hg. now destruct (truthy_str (w_staticToken w)).
  - destruct (w_store_get_ok w); [rewrite Hr|]; now destruct (truthy_str (w_staticToken w)).
Qed.

Lemma getAccessToken_record w req uid s it :
  no_embedded_token req -> w_store_get_ok w = true -> st_store s !! uid = Some it ->
  getAccessToken w req uid s =
  bind (ensureValidTokens w uid (tokens_of_item it)) (fun v => ret (Some (accessToken v)))
       (add_trace s [EStoreGet uid]).
Proof.
  unfold no_embedded_token. intros Hno Hg Hr.
  unfold getAccessToken. rewrite Hno.
  unfold bind at 1. unfold getTokens, emit, bind, ret. simpl.
  now rewrite Hg, Hr.
Qed.

Lemma getAccessToken_valid_stored w req uid s it :
  no_embedded_token req -> w_store_get_ok w = true -> st_store s !! uid = Some it ->
  w_now w < item_expiresAt it ->
  getAccessToken w req uid s = (Ok (Some (item_token it)), add_trace s [EStoreGet uid]).
Proof.
  intros Hno Hg Hr Hlt. rewrite (getAccessToken_record w req uid s it Hno Hg Hr).
  unfold ensureValidTokens. simpl.
  replace (w_now w >=? item_expiresAt it) with false by (symmetry; rewrite Z.geb_leb; apply Z.leb_gt; lia).
  reflexivity.
Qed.

Lemma getAccessToken_expired_refresh w req uid s it rt c r :
  no_embedded_token req -> w_store_get_ok w = true -> st_store s !! uid = Some it ->
  item_expiresAt it <= w_now w ->
  item_refreshToken it = Some rt -> rt <> ""%string ->
  w_credentials w = Some c -> w_refresh w rt = HOk r -> w_store_put_ok w = true ->
  getAccessToken w req uid s =
  (Ok (Some (access_token r)),
   {| st_store := <[uid := refreshed_item w r]> (st_store s);
      st_trace := st_trace s ++ [EStoreGet uid; ESecretGet; ERefresh (tokenUrl c) rt;
                                 EStorePut uid (refreshed_item w r)] |}).
Proof.
  intros Hno Hg Hr Hle Hrt Hne Hc Hrf Hput.
  rewrite (getAccessToken_record w req uid s it Hno Hg Hr).
  unfold ensureValidTokens. simpl.
  replace (w_now w >=? item_expiresAt it) with true by (symmetry; apply Z.geb_le; lia).
  rewrite Hrt. apply String.eqb_neq in Hne. rewrite Hne.
  unfold bind, getCredentials, refreshAccessToken, updateTokens, emit, ret. simpl.
  rewrite Hc, Hrf, Hput. simpl. now rewrite <- !app_assoc.
Qed.

Lemma getAccessToken_expired_fails w req uid s it :
  no_embedded_token req -> w_store_get_ok w = true -> st_store s !! uid = Some it ->
  item_expiresAt it <= w_now w ->
  (truthy_str (item_refreshToken it) = false \/
   exists rt, item_refreshToken it = Some rt /\ forall r, w_refresh w rt <> HOk r) ->
  exists e s', getAccessToken w req uid s = (Throw e, s').
Proof.
  intros Hno Hg Hr Hle Hfail.
  rewrite (getAccessToken_record w req uid s it Hno Hg Hr).
  unfold ensureValidTokens. simpl.
  replace (w_now w >=? item_expiresAt it) with true by (symmetry; apply Z.geb_le; lia).
  destruct Hfail as [Hnone | [rt [Hrt Hrf]]].
  - destruct (item_refreshToken it) as [rt|] eqn:E; simpl in Hnone.
    + apply negb_false_iff in Hnone. rewrite Hnone. eauto.
    + eauto.
  - rewrite Hrt. destruct (String.eqb rt "") ; [eauto|].
    unfold bind, getCredentials, refreshAccessToken, emit, ret, throw. simpl.
    destruct (w_credentials w) as [c|]; [|eauto].
    destruct (w_refresh w rt) eqn:E; [exfalso; eapply Hrf; eauto | eauto | eauto].
Qed.

Lemma getAccessToken_record_ignores_static w req uid s it tok :
  no_embedded_token req -> w_store_get_ok w = true -> st_store s !! uid = Some it ->
  getAccessToken w req uid s = getAccessToken (with_static w tok) req uid s.
Proof.
  intros Hno Hg Hr.
  rewrite (getAccessToken_record w req uid s it Hno Hg Hr).
  rewrite (getAccessToken_record (with_static w tok) req uid s it Hno Hg Hr).
  reflexivity.
Qed.

(** C1: token resolution precedence.  An embedded token is returned
    without touching the store (the state, hence the trace, is unchanged);
    a stored token that has not expired is returned after the single store
    read, with no refresh call; an expired stored token with a refresh token
    leads to exactly one refresh call, and the refreshed access token is
    written to the store before it is returned (when the credentials load,
    the token endpoint answers and the write succeeds). *)
Theorem getAccessToken_precedence :
  (forall w req uid s,
     truthy_str (or_str (ctx_accessToken req) (session_accessToken req)) = true ->
     getAccessToken w req uid s = (Ok (or_str (ctx_accessToken req) (session_accessToken req)), s)) /\
  (forall w req uid s it,
     no_embedded_token req -> w_store_get_ok w = true -> st_store s !! uid = Some it ->
     w_now w < item_expiresAt it ->
     getAccessToken w req uid s = (Ok (Some (item_token it)), add_trace s [EStoreGet uid])) /\
  (forall w req uid s it rt c r,
     no_embedded_token req -> w_store_get_ok w = true -> st_store s !! uid = Some it ->
     item_expiresAt it <= w_now w ->
     item_refreshToken it = Some rt -> rt <> ""%string ->
     w_credentials w = Some c -> w_refresh w rt = HOk r -> w_store_put_ok w = true ->
     getAccessToken w req uid s =
     (Ok (Some (access_token r)),
      {| st_store := <[uid := refreshed_item w r]> (st_store s);
         st_trace := st_trace s ++ [EStoreGet uid; ESecretGet; ERefresh (tokenUrl c) rt;
                                    EStorePut uid (refreshed_item w r)] |})).
Proof.
  split; [|split].
  - apply getAccessToken_embedded.
  - apply getAccessToken_valid_stored.
  - apply getAccessToken_expired_refresh.
Qed.

Lemma getAccessToken_precedence_witness :
  let w := Samples.world [] (HStatus 401) Samples.two_teams None true in
  getAccessToken w (Samples.event "IntentRequest" None (Some "tok")) "u" Samples.empty_st =
    (Ok (Some "tok"%string), Samples.empty_st) /\
  getAccessToken w (Samples.event "IntentRequest" None None) "u"
    (Samples.stored_st Samples.valid_item) =
    (Ok (Some "old"%string), add_trace (Samples.stored_st Samples.valid_item) [EStoreGet "u"]) /\
  exists c r, getAccessToken w (Samples.event "IntentRequest" None None) "u"
                (Samples.stored_st Samples.expired_item) =
    (Ok (Some (access_token r)),
     {| st_store := <["u" := refreshed_item w r]> (st_store (Samples.stored_st Samples.expired_item));
        st_trace := st_trace (Samples.stored_st Samples.expired_item) ++
          [EStoreGet "u"; ESecretGet; ERefresh (tokenUrl c) "r"; EStorePut "u" (refreshed_item w r)] |}).
Proof.
  intros w. destruct getAccessToken_precedence as [Ha [Hb Hc]].
  split; [|split].
  - apply (Ha w); reflexivity.
  - apply (Hb w _ _ _ Samples.valid_item); [reflexivity | reflexivity | reflexivity | simpl; lia].
  - eexists; eexists.
    apply (Hc w _ _ _ Samples.expired_item);
      [reflexivity | reflexivity | reflexivity | simpl; lia | reflexivity | discriminate
      | reflexivity | reflexivity | reflexivity].
Defined.

(** C5, as stated: an expired stored token with no refresh token always
    makes credential resolution fail.  It does not when the store read
    fails: [getTokens] catches the error and returns [null], and the static
    token is returned although the record exists. *)
Lemma expired_no_refresh_counterexample :
  ~ (forall w req uid s it,
       no_embedded_token req -> st_store s !! uid = Some it ->
       item_expiresAt it <= w_now w ->
       truthy_str (item_refreshToken it) = false ->
       exists e s', getAccessToken w req uid s = (Throw e, s')).
Proof.
  intros H.
  destruct (H (Samples.world [] (HStatus 401) Samples.two_teams (Some "static") false)
              (Samples.event "IntentRequest" None None) "u"
              (Samples.stored_st Samples.dead_item) Samples.dead_item)
    as [e [s' Heq]]; [reflexivity | reflexivity | simpl; lia | reflexivity |].
  vm_compute in Heq. discriminate Heq.
Qed.

(** C5 (amended): when the event has no token and the store read returns a
    record, the static token is never consulted, and an expired record with
    no usable refresh token, or whose refresh call fails, makes resolution
    fail; when the store read yields no record (none exists, or the read
    itself fails), the static token is returned if set, and nothing else. *)
Theorem credential_fallback_policy :
  (forall w req uid s it,
     no_embedded_token req -> w_store_get_ok w = true -> st_store s !! uid = Some it ->
     item_expiresAt it <= w_now w ->
     (truthy_str (item_refreshToken it) = false \/
      exists rt, item_refreshToken it = Some rt /\ forall r, w_refresh w rt <> HOk r) ->
     exists e s', getAccessToken w req uid s = (Throw e, s')) /\
  (forall w req uid s it tok,
     no_embedded_token req -> w_store_get_ok w = true -> st_store s !! uid = Some it ->
     getAccessToken w req uid s = getAccessToken (with_static w tok) req uid s) /\
  (forall w req uid s,
     no_embedded_token req ->
     (w_store_get_ok w = false \/ st_store s !! uid = None) ->
     getAccessToken w req uid s =
     (Ok (if truthy_str (w_staticToken w) then w_staticToken w else None),
      add_trace s [EStoreGet uid])).
Proof.
  split; [|split].
  - apply getAccessToken_expired_fails.
  - apply getAccessToken_record_ignores_static.
  - apply getAccessToken_no_record.
Qed.

Lemma credential_fallback_policy_witness :
  let w1 := Samples.world [] (HStatus 401) Samples.two_teams (Some "static") true in
  let w0 := Samples.world [] (HStatus 401) Samples.two_teams (Some "static") false in
  let req := Samples.event "IntentRequest" None None in
  (exists e s', getAccessToken w1 req "u" (Samples.stored_st Samples.dead_item) = (Throw e, s')) /\
  getAccessToken w1 req "u" (Samples.stored_st Samples.dead_item) =
    getAccessToken (with_static w1 None) req "u" (Samples.stored_st Samples.dead_item) /\
  getAccessToken w0 req "u" (Samples.stored_st Samples.dead_item) =
    (Ok (if truthy_str (w_staticToken w0) then w_staticToken w0 else None),
     add_trace (Samples.stored_st Samples.dead_item) [EStoreGet "u"]).
Proof.
  intros w1 w0 req. destruct credential_fallback_policy as [Ha [Hb Hc]].
  split; [|split].
  - apply (Ha w1 req "u" _ Samples.dead_item);
      [reflexivity | reflexivity | reflexivity | simpl; lia | left; reflexivity].
  - apply (Hb w1 req "u" _ Samples.dead_item); reflexivity.
  - apply (Hc w0 req "u"); [reflexivity | left; reflexivity].
Defined.

(* ------------------------------------------------------------------ *)
(** ** The unauthenticated health check *)

(** [checkPlantHealth] turns every failure into an [Error] with a message:
    no axios error, hence no [response] field, ever leaves it. *)
Lemma checkPlantHealth_throws_message w tok s :
  match fst (checkPlantHealth w tok s) with
  | Throw e => exists m, e = ExnError m
  | Ok _ => True
  end.
Proof.
  unfold checkPlantHealth, try_catch, bind, axios_get, emit, ret, throw. simpl.
  destruct (w_health w tok) as [d|st|code]; simpl.
  - destruct (hd_status d) as [[| b | z | str]|]; simpl; auto;
      try (destruct b); try (destruct (z =? 0)%Z); try (destruct (String.eqb str "")); simpl;
      unfold health_error; eauto.
  - unfold health_error. destruct (500 <=? st); eauto.
  - unfold health_error. destruct code as [c|]; [destruct (String.eqb c "ECONNABORTED")|]; eauto.
Qed.

(** C2 (code_bug): with no token anywhere and a 401 from the health
    endpoint, [handleCheckPlantHealth] answers with the generic apology and
    no card: the 401/403 test in its inner [catch] never fires. *)
Theorem health_401_without_token_gives_no_link_card :
  (forall w tok s, match fst (checkPlantHealth w tok s) with
                   | Throw (ExnAxios _ _) => False
                   | _ => True
                   end) /\
  (forall w req uid s,
     no_embedded_token req ->
     (w_store_get_ok w = false \/ st_store s !! uid = None) ->
     truthy_str (w_staticToken w) = false ->
     w_health w None = HStatus 401 ->
     fst (handleCheckPlantHealth w uid req s) =
     Ok (createErrorResponse
           "Sorry, I couldn't check your plant health right now. Please try again later.")).
Proof.
  split.
  - intros w tok s. pose proof (checkPlantHealth_throws_message w tok s) as H.
    destruct (fst (checkPlantHealth w tok s)) as [|e]; auto.
    destruct H as [m ->]. exact I.
  - intros w req uid s Hno Hrec Hst Hh.
    unfold handleCheckPlantHealth.
    rewrite (try_bind_ok _ _ _ _ _ _ (getAccessToken_no_record w req uid s Hno Hrec)).
    rewrite Hst. simpl.
    unfold try_catch at 1, bind at 1, try_catch at 1, bind at 1.
    unfold checkPlantHealth, try_catch, bind, axios_get, emit, throw. simpl.
    rewrite Hh. reflexivity.
Qed.

Lemma health_401_without_token_gives_no_link_card_witness :
  let w := Samples.world [] (HStatus 401) Samples.two_teams None true in
  fst (handleCheckPlantHealth w "u" (Samples.event "IntentRequest" None None) Samples.empty_st) =
  Ok (createErrorResponse
        "Sorry, I couldn't check your plant health right now. Please try again later.").
Proof.
  intros w. destruct health_401_without_token_gives_no_link_card as [_ H].
  apply H; [reflexivity | right; reflexivity | reflexivity | reflexivity].
Defined.

(* ------------------------------------------------------------------ *)
(** ** API client requests and error mapping *)

(** Case analysis on a status code against the literals a [match] tests. *)
Ltac status_cases st :=
  destruct st as [|p|p]; try reflexivity;
  repeat match goal with |- context [match ?x with _ => _ end] => destruct x; try reflexivity end.

Ltac run_call H :=
  unfold try_catch, bind, axios_get, emit, throw, ret; simpl; rewrite H; simpl.

(** C8, as stated: every call maps 401, 404, 5xx and timeouts to the
    kinds Unauthorized, NotFound, ServiceUnavailable and Timeout.  A 500
    from the teams endpoint is a generic failure, and so is a 401 from the
    health endpoint. *)
Lemma api_error_kinds_counterexample :
  let w := Samples.world [] (HStatus 401) Samples.two_teams None true in
  let w500 := Samples.w500 in
  fst (getTeams w500 "tok" Samples.empty_st) = Throw (ExnError "Failed to retrieve teams") /\
  error_kind (ExnError "Failed to retrieve teams") = Failed /\
  spec_kind (w_teams w500 "tok") = Some ServiceUnavailable /\
  fst (checkPlantHealth w None Samples.empty_st) =
    Throw (ExnError "Failed to retrieve plant health data") /\
  error_kind (ExnError "Failed to retrieve plant health data") = Failed /\
  spec_kind (w_health w None) = Some Unauthorized.
Proof. vm_compute. repeat split. Qed.

Lemma health_request_shape w tok :
  rq_timeout (health_request w tok) = 10000 /\
  (forall t, tok = Some t -> t <> ""%string -> In (bearer t) (rq_headers (health_request w tok))) /\
  (truthy_str tok = false -> rq_headers (health_request w tok) = [json_header]).
Proof.
  split; [reflexivity|split].
  - intros t -> Hne. unfold health_request, truthy_str. simpl.
    destruct (String.eqb_spec t ""); [contradiction|]. simpl. auto.
  - intros Hf. unfold health_request. simpl. destruct tok as [t|]; [|reflexivity].
    simpl in *. destruct (String.eqb t ""); [reflexivity | discriminate].
Qed.

Lemma checkPlantHealth_status w tok s st :
  w_health w tok = HStatus st ->
  checkPlantHealth w tok s =
  (Throw (ExnError (if 500 <=? st then "Plant health service is temporarily unavailable"
                    else "Failed to retrieve plant health data")),
   add_trace s [EGet (health_request w tok)]).
Proof.
  intros H. unfold checkPlantHealth. run_call H. unfold health_error. simpl.
  now destruct (500 <=? st).
Qed.

Lemma checkPlantHealth_noresponse w tok s code :
  w_health w tok = HNoResponse code ->
  checkPlantHealth w tok s =
  (Throw (ExnError (if (match code with Some c => String.eqb c "ECONNABORTED" | None => false end)
                    then "Request timeout - please try again"
                    else "Failed to retrieve plant health data")),
   add_trace s [EGet (health_request w tok)]).
Proof.
  intros H. unfold checkPlantHealth. run_call H. unfold health_error. simpl.
  destruct code as [c|]; [destruct (String.eqb c "ECONNABORTED")|]; reflexivity.
Qed.

Lemma getTeams_failure w tok s :
  getTeams w tok s =
  match w_teams w tok with
  | HOk d => (Ok d, add_trace s [EGet (teams_request w tok)])
  | HStatus st => (Throw (ExnError (if st =? 401 then "Unauthorized - please link your account"
                                    else "Failed to retrieve teams")),
                   add_trace s [EGet (teams_request w tok)])
  | HNoResponse _ => (Throw (ExnError "Failed to retrieve teams"), add_trace s [EGet (teams_request w tok)])
  end.
Proof.
  unfold getTeams, try_catch, bind, axios_get, emit, throw, ret. simpl.
  destruct (w_teams w tok) as [d|st|code]; simpl; try reflexivity.
  unfold teams_error. status_cases st.
Qed.

Lemma getTeamDetails_failure w tok id s :
  getTeamDetails w tok id s =
  match w_team w tok id with
  | HOk d => (Ok d, add_trace s [EGet (team_request w tok id)])
  | HStatus st => (Throw (ExnError (if st =? 404 then "Team not found"
                                    else if st =? 401 then "Unauthorized - please link your account"
                                    else "Failed to retrieve team details")),
                   add_trace s [EGet (team_request w tok id)])
  | HNoResponse _ => (Throw (ExnError "Failed to retrieve team details"),
                      add_trace s [EGet (team_request w tok id)])
  end.
Proof.
  unfold getTeamDetails, try_catch, bind, axios_get, emit, throw, ret. simpl.
  destruct (w_team w tok id) as [d|st|code]; simpl; try reflexivity.
  unfold team_error. status_cases st.
Qed.

Lemma getPlantDetails_failure w tok id s :
  getPlantDetails w tok id s =
  match w_plant w tok id with
  | HOk d => (Ok d, add_trace s [EGet (plant_request w tok id)])
  | HStatus st => (Throw (ExnError (if st =? 404 then "Plant not found"
                                    else if st =? 401 then "Unauthorized - please link your account"
                                    else "Failed to retrieve plant details")),
                   add_trace s [EGet (plant_request w tok id)])
  | HNoResponse _ => (Throw (ExnError "Failed to retrieve plant details"),
                      add_trace s [EGet (plant_request w tok id)])
  end.
Proof.
  unfold getPlantDetails, try_catch, bind, axios_get, emit, throw, ret. simpl.
  destruct (w_plant w tok id) as [d|st|code]; simpl; try reflexivity.
  unfold plant_error. status_cases st.
Qed.

Lemma checkPlantHealth_trace w tok s :
  snd (checkPlantHealth w tok s) = add_trace s [EGet (health_request w tok)].
Proof.
  unfold checkPlantHealth, try_catch, bind, axios_get, emit, throw, ret. simpl.
  destruct (w_health w tok) as [d|st|code]; simpl; try reflexivity.
  destruct (hd_status d) as [[| b | z | str]|]; simpl; try reflexivity;
    try (destruct b); try (destruct (z =? 0)%Z); try (destruct (String.eqb str "")); reflexivity.
Qed.

(** C8 (amended): every call sends one GET with a 10 000 ms timeout and a
    bearer header (the health check only for a non-empty token), and maps
    a failed outcome to its own kinds: the health check to
    ServiceUnavailable (status >= 500), Timeout (ECONNABORTED) or Failed;
    the team list to Unauthorized (401) or Failed; team and plant details
    to NotFound (404), Unauthorized (401) or Failed. *)
Theorem api_calls_timeout_auth_and_error_kinds :
  (forall w tok s,
     snd (checkPlantHealth w tok s) = add_trace s [EGet (health_request w tok)] /\
     rq_timeout (health_request w tok) = 10000 /\
     (forall t, tok = Some t -> t <> ""%string -> In (bearer t) (rq_headers (health_request w tok))) /\
     (truthy_str tok = false -> rq_headers (health_request w tok) = [json_header]) /\
     ((forall a, w_health w tok <> HOk a) ->
      exists e, fst (checkPlantHealth w tok s) = Throw e /\ error_kind e = health_kind (w_health w tok))) /\
  (forall w tok s,
     snd (getTeams w tok s) = add_trace s [EGet (teams_request w tok)] /\
     rq_timeout (teams_request w tok) = 10000 /\ In (bearer tok) (rq_headers (teams_request w tok)) /\
     ((forall a, w_teams w tok <> HOk a) ->
      exists e, fst (getTeams w tok s) = Throw e /\ error_kind e = teams_kind (w_teams w tok))) /\
  (forall w tok id s,
     snd (getTeamDetails w tok id s) = add_trace s [EGet (team_request w tok id)] /\
     rq_timeout (team_request w tok id) = 10000 /\ In (bearer tok) (rq_headers (team_request w tok id)) /\
     ((forall a, w_team w tok id <> HOk a) ->
      exists e, fst (getTeamDetails w tok id s) = Throw e /\
                error_kind e = details_kind (w_team w tok id))) /\
  (forall w tok id s,
     snd (getPlantDetails w tok id s) = add_trace s [EGet (plant_request w tok id)] /\
     rq_timeout (plant_request w tok id) = 10000 /\ In (bearer tok) (rq_headers (plant_request w tok id)) /\
     ((forall a, w_plant w tok id <> HOk a) ->
      exists e, fst (getPlantDetails w tok id s) = Throw e /\
                error_kind e = details_kind (w_plant w tok id))).
Proof.
  split; [|split; [|split]].
  - intros w tok s. destruct (health_request_shape w tok) as [Ht [Hb Hn]].
    split; [apply checkPlantHealth_trace|]. split; [exact Ht|]. split; [exact Hb|]. split; [exact Hn|].
    intros Hf. destruct (w_health w tok) as [a|st|code] eqn:E.
    + exfalso. eapply Hf; eauto.
    + rewrite (checkPlantHealth_status w tok s st E). eexists; split; [reflexivity|].
      simpl. destruct (500 <=? st); reflexivity.
    + rewrite (checkPlantHealth_noresponse w tok s code E). eexists; split; [reflexivity|].
      destruct code as [c|]; simpl; [destruct (String.eqb c "ECONNABORTED")|]; reflexivity.
  - intros w tok s. rewrite (getTeams_failure w tok s).
    split; [destruct (w_teams w tok); reflexivity|].
    split; [reflexivity|]. split; [simpl; auto|].
    intros Hf. destruct (w_teams w tok) as [a|st|code].
    + exfalso. eapply Hf; eauto.
    + eexists; split; [reflexivity|]. simpl. destruct (st =? 401); reflexivity.
    + eexists; split; reflexivity.
  - intros w tok id s. rewrite (getTeamDetails_failure w tok id s).
    split; [destruct (w_team w tok id); reflexivity|].
    split; [reflexivity|]. split; [simpl; auto|].
    intros Hf. destruct (w_team w tok id) as [a|st|code].
    + exfalso. eapply Hf; eauto.
    + eexists; split; [reflexivity|]. simpl. destruct (st =? 404); [reflexivity|].
      destruct (st =? 401); reflexivity.
    + eexists; split; reflexivity.
  - intros w tok id s. rewrite (getPlantDetails_failure w tok id s).
    split; [destruct (w_plant w tok id); reflexivity|].
    split; [reflexivity|]. split; [simpl; auto|].
    intros Hf. destruct (w_plant w tok id) as [a|st|code].
    + exfalso. eapply Hf; eauto.
    + eexists; split; [reflexivity|]. simpl. destruct (st =? 404); [reflexivity|].
      destruct (st =? 401); reflexivity.
    + eexists; split; reflexivity.
Qed.

Lemma api_calls_timeout_auth_and_error_kinds_witness :
  let w := Samples.w500 in
  let s := Samples.empty_st in
  (exists e, fst (checkPlantHealth w (Some "tok"%string) s) = Throw e /\
             error_kind e = health_kind (w_health w (Some "tok"%string))) /\
  (exists e, fst (getTeams w "tok" s) = Throw e /\ error_kind e = teams_kind (w_teams w "tok")) /\
  (exists e, fst (getTeamDetails w "tok" "k1" s) = Throw e /\
             error_kind e = details_kind (w_team w "tok" "k1")) /\
  (exists e, fst (getPlantDetails w "tok" "p1" s) = Throw e /\
             error_kind e = details_kind (w_plant w "tok" "p1")).
Proof.
  intros w s. destruct api_calls_timeout_auth_and_error_kinds as [H1 [H2 [H3 H4]]].
  split; [|split; [|split]].
  - apply (H1 w (Some "tok"%string) s). intros a. discriminate.
  - apply (H2 w "tok"%string s). intros a. discriminate.
  - apply (H3 w "tok"%string "k1"%string s). intros a. discriminate.
  - apply (H4 w "tok"%string "p1"%string s). intros a. discriminate.
Defined.

(* ------------------------------------------------------------------ *)
(** ** Watering-need inference *)

Lemma list_needs_water_summary w tok p s :
  summary_says_needs_water p = true -> list_needs_water w tok p s = (Ok true, s).
Proof.
  unfold summary_says_needs_water, list_needs_water. intros H.
  destruct (is_jstr (tp_status p) "needs_water"), (is_jstr (tp_status p) "needs water"),
    (is_jtrue (tp_needs_water p)), (is_jtrue (tp_needsWater p)); simpl in *; try reflexivity;
    discriminate.
Qed.

Lemma list_needs_water_silent w tok p s pd :
  summary_silent p -> w_plant w tok (tp_id p) = HOk pd -> details_silent pd ->
  list_needs_water w tok p s = (Ok false, add_trace s [EGet (plant_request w tok (tp_id p))]).
Proof.
  intros [H1 [H2 H3]] Hpd [D1 [D2 [D3 D4]]].
  unfold list_needs_water. rewrite H1, H2, H3. simpl.
  unfold bind. rewrite getPlantDetails_failure, Hpd. unfold ret.
  rewrite D1, D2, D3. simpl.
  destruct (default [] (pd_checkups pd)) as [|c rest] eqn:E; [reflexivity|].
  destruct (D4 c rest eq_refl) as [C1 [C2 C3]]. now rewrite C1, C2, C3.
Qed.

Lemma team_needs_water_silent pd : details_silent pd -> team_needs_water pd = false.
Proof.
  intros [D1 [D2 [D3 D4]]]. unfold team_needs_water. rewrite D1. simpl.
  destruct (default [] (pd_checkups pd)) as [|c rest] eqn:E; [reflexivity|].
  destruct (D4 c rest eq_refl) as [C1 [C2 C3]]. now rewrite C1, C2, C3.
Qed.

Lemma collect_team_plants_eq w tok ps acc s :
  collect_team_plants w tok ps acc s =
  (Ok (acc ++ flat_map (fun p =>
         match w_plant w tok (tp_id p) with
         | HOk pd => [{| ps_name := str_or (or_str (pd_name pd) (tp_name p)) "Unnamed Plant";
                         ps_id := tp_id p; ps_needsWatered := team_needs_water pd |}]
         | _ => []
         end) ps),
   add_trace s (map (fun p => EGet (plant_request w tok (tp_id p))) ps)).
Proof.
  revert acc s. induction ps as [|p ps IH]; intros acc s.
  - simpl. unfold ret, add_trace. rewrite app_nil_r. destruct s; simpl. now rewrite app_nil_r.
  - simpl. unfold bind at 1. unfold try_catch at 1. unfold bind at 1.
    rewrite getPlantDetails_failure.
    destruct (w_plant w tok (tp_id p)) as [pd|st|code]; simpl; rewrite IH;
      unfold add_trace; simpl; rewrite <- !app_assoc; simpl; rewrite ?app_nil_r; reflexivity.
Qed.

(** The team-scoped plant loop fetches the details of every plant, once
    each and in list order, whatever the team summary says. *)
Lemma collect_team_plants_fetches w tok ps acc s :
  snd (collect_team_plants w tok ps acc s) =
  add_trace s (map (fun p => EGet (plant_request w tok (tp_id p))) ps).
Proof. now rewrite collect_team_plants_eq. Qed.

(** C3, as stated: the team-scoped aggregation also skips the detail fetch
    for a plant whose team summary says it needs water.  It does not: the
    check-one-team handler fetches the details of every plant, here of the
    fern whose summary status is 'needs_water'. *)
Lemma team_scoped_fetch_counterexample :
  let w := Samples.world [Samples.kitchen; Samples.office] (HStatus 401) Samples.two_teams None true in
  summary_says_needs_water Samples.fern = true /\
  In (EGet (plant_request w "tok" (tp_id Samples.fern)))
     (st_trace (snd (handleCheckTeamPlantStatus w "u" (Some "kitchen"%string)
                       (Samples.event "IntentRequest" None (Some "tok"%string)) Samples.empty_st))).
Proof.
  vm_compute. split; [reflexivity|].
  repeat (first [left; reflexivity | right]).
Qed.

(** C3 (amended): in the list-all aggregation a plant whose team summary
    says it needs water is classified as needing water with no further
    call, and a plant with no status in the summary, the details or the
    latest checkup is classified as not needing water; in the team-scoped
    aggregation the details of every plant are fetched, once each and in
    list order, and a plant whose
    details and latest checkup carry no status is classified as not
    needing water. *)
Theorem watering_need_inference :
  (forall w tok p s,
     summary_says_needs_water p = true -> list_needs_water w tok p s = (Ok true, s)) /\
  (forall w tok p s pd,
     summary_silent p -> w_plant w tok (tp_id p) = HOk pd -> details_silent pd ->
     list_needs_water w tok p s = (Ok false, add_trace s [EGet (plant_request w tok (tp_id p))])) /\
  (forall w tok ps acc s,
     snd (collect_team_plants w tok ps acc s) =
     add_trace s (map (fun p => EGet (plant_request w tok (tp_id p))) ps)) /\
  (forall pd, details_silent pd -> team_needs_water pd = false).
Proof.
  split; [|split; [|split]].
  - apply list_needs_water_summary.
  - apply list_needs_water_silent.
  - apply collect_team_plants_fetches.
  - apply team_needs_water_silent.
Qed.

Lemma watering_need_inference_witness :
  let w := Samples.world [Samples.kitchen] (HStatus 401) Samples.two_teams None true in
  list_needs_water w "tok" Samples.fern Samples.empty_st = (Ok true, Samples.empty_st) /\
  list_needs_water w "tok" Samples.cactus Samples.empty_st =
    (Ok false, add_trace Samples.empty_st [EGet (plant_request w "tok" (tp_id Samples.cactus))]) /\
  team_needs_water Samples.bare_details = false.
Proof.
  intros w. destruct watering_need_inference as [H1 [H2 [_ H4]]].
  split; [|split].
  - apply H1. reflexivity.
  - apply (H2 w "tok"%string Samples.cactus Samples.empty_st Samples.bare_details).
    + repeat split.
    + reflexivity.
    + repeat split; discriminate.
  - apply H4. repeat split; discriminate.
Defined.

(* ------------------------------------------------------------------ *)
(** ** Aggregation over teams and plants *)

(** A [try]/[catch] whose handler returns never throws. *)
Lemma try_ret_ok {A} (m : M A) (a : A) s :
  exists b s', try_catch m (fun _ => ret a) s = (Ok b, s').
Proof. unfold try_catch. destruct (m s) as [[b|e] s1]; eauto. Qed.

Lemma collect_plants_ok w tok ps acc s :
  exists l s', collect_plants w tok ps acc s = (Ok l, s').
Proof.
  revert acc s. induction ps as [|p ps IH]; intros acc s; simpl; [eauto|].
  unfold bind at 1.
  destruct (try_ret_ok (let* n := list_needs_water w tok p in
                        ret (acc ++ [{| ps_name := str_or (tp_name p) "Unnamed Plant";
                                        ps_id := tp_id p; ps_needsWatered := n |}])) acc s)
    as [b [s1 ->]].
  apply IH.
Qed.

Lemma collect_teams_ok w tok ts acc s :
  exists l s', collect_teams w tok ts acc s = (Ok l, s').
Proof.
  revert acc s. induction ts as [|t ts IH]; intros acc s; simpl; [eauto|].
  unfold bind at 1.
  destruct (try_ret_ok (let* td := getTeamDetails w tok (team_id t) in
                        collect_plants w tok (default [] (plants td)) acc) acc s)
    as [b [s1 ->]].
  apply IH.
Qed.

Lemma collect_plants_skip w tok p rest acc s e s1 :
  list_needs_water w tok p s = (Throw e, s1) ->
  collect_plants w tok (p :: rest) acc s = collect_plants w tok rest acc s1.
Proof. intros H. simpl. unfold bind at 1, try_catch, bind. now rewrite H. Qed.

Lemma collect_teams_skip w tok t rest acc s e s1 :
  getTeamDetails w tok (team_id t) s = (Throw e, s1) ->
  collect_teams w tok (t :: rest) acc s = collect_teams w tok rest acc s1.
Proof. intros H. simpl. unfold bind at 1, try_catch, bind. now rewrite H. Qed.

Lemma getTeams_ok w tok s d :
  w_teams w tok = HOk d -> getTeams w tok s = (Ok d, add_trace s [EGet (teams_request w tok)]).
Proof. intros H. rewrite getTeams_failure, H. reflexivity. Qed.

Lemma collect_two_teams_second_fails w tok t1 t2 s :
  (forall a, w_team w tok (team_id t2) <> HOk a) ->
  exists b sA sB, collect_teams w tok [t1; t2] [] s = (Ok b, sA) /\
                  collect_teams w tok [t1] [] s = (Ok b, sB).
Proof.
  intros Hf.
  destruct (try_ret_ok (let* td := getTeamDetails w tok (team_id t1) in
                        collect_plants w tok (default [] (plants td)) []) [] s)
    as [b [s1 Hb]].
  assert (Hd : exists e s2, getTeamDetails w tok (team_id t2) s1 = (Throw e, s2)).
  { rewrite getTeamDetails_failure. destruct (w_team w tok (team_id t2)) as [a| |] eqn:E.
    - exfalso. eapply Hf; eauto.
    - eauto.
    - eauto. }
  destruct Hd as [e [s2 Hd]].
  exists b, s2, s1. split.
  - simpl. unfold bind at 1. rewrite Hb. fold (collect_teams w tok [t2] b).
    rewrite (collect_teams_skip w tok t2 [] b s1 e s2 Hd). reflexivity.
  - simpl. unfold bind at 1. rewrite Hb. reflexivity.
Qed.

Lemma list_status_second_team_fails w uid req s s1 tok t1 t2 :
  getAccessToken w req uid s = (Ok (Some tok), s1) -> tok <> ""%string ->
  w_teams w tok = HOk {| teams := Some [t1; t2] |} ->
  (forall a, w_team w tok (team_id t2) <> HOk a) ->
  fst (handleListPlantStatus w uid req s) = fst (handleListPlantStatus (with_teams w [t1]) uid req s).
Proof.
  intros Htok Hne Hteams Hf.
  assert (Htok' : getAccessToken (with_teams w [t1]) req uid s = (Ok (Some tok), s1)) by exact Htok.
  unfold handleListPlantStatus.
  rewrite (try_bind_ok _ _ _ _ _ _ Htok), (try_bind_ok _ _ _ _ _ _ Htok').
  apply String.eqb_neq in Hne. cbv beta iota. rewrite Hne.
  rewrite (try_bind_ok _ _ _ _ _ _ (getTeams_ok w tok s1 _ Hteams)).
  rewrite (try_bind_ok _ _ _ _ _ _ (getTeams_ok (with_teams w [t1]) tok s1 {| teams := Some [t1] |} eq_refl)).
  cbv beta iota. simpl default.
  change (collect_teams (with_teams w [t1])) with (collect_teams w).
  destruct (collect_two_teams_second_fails w tok t1 t2
              (add_trace s1 [EGet (teams_request w tok)]) Hf) as [b [sA [sB [HA HB]]]].
  change (teams_request (with_teams w [t1]) tok) with (teams_request w tok).
  rewrite (try_bind_ok _ _ _ _ _ _ HA), (try_bind_ok _ _ _ _ _ _ HB).
  destruct b; reflexivity.
Qed.

(** C4: failures during the list-all aggregation never abort it.  Both
    loops always return a list; a plant whose watering check fails, or a
    team whose details cannot be fetched, is skipped with the accumulated
    list unchanged; and with two teams whose second one fails, the response
    is the one for the first team alone. *)
Theorem list_aggregation_excludes_failures :
  (forall w tok ts acc s, exists l s', collect_teams w tok ts acc s = (Ok l, s')) /\
  (forall w tok ps acc s, exists l s', collect_plants w tok ps acc s = (Ok l, s')) /\
  (forall w tok p rest acc s e s1,
     list_needs_water w tok p s = (Throw e, s1) ->
     collect_plants w tok (p :: rest) acc s = collect_plants w tok rest acc s1) /\
  (forall w tok t rest acc s e s1,
     getTeamDetails w tok (team_id t) s = (Throw e, s1) ->
     collect_teams w tok (t :: rest) acc s = collect_teams w tok rest acc s1) /\
  (forall w uid req s s1 tok t1 t2,
     getAccessToken w req uid s = (Ok (Some tok), s1) -> tok <> ""%string ->
     w_teams w tok = HOk {| teams := Some [t1; t2] |} ->
     (forall a, w_team w tok (team_id t2) <> HOk a) ->
     fst (handleListPlantStatus w uid req s) =
     fst (handleListPlantStatus (with_teams w [t1]) uid req s)).
Proof.
  split; [apply collect_teams_ok|].
  split; [apply collect_plants_ok|].
  split; [apply collect_plants_skip|].
  split; [apply collect_teams_skip|].
  apply list_status_second_team_fails.
Qed.

Lemma list_aggregation_excludes_failures_witness :
  let w := Samples.world [Samples.kitchen; Samples.office] (HStatus 401) Samples.two_teams None true in
  let req := Samples.event "IntentRequest" None (Some "tok"%string) in
  fst (handleListPlantStatus w "u" req Samples.empty_st) =
  fst (handleListPlantStatus (with_teams w [Samples.kitchen]) "u" req Samples.empty_st).
Proof.
  intros w req. destruct list_aggregation_excludes_failures as [_ [_ [_ [_ H]]]].
  apply (H w "u"%string req Samples.empty_st Samples.empty_st "tok"%string Samples.kitchen Samples.office).
  - reflexivity.
  - discriminate.
  - reflexivity.
  - intros a. discriminate.
Defined.

(* ------------------------------------------------------------------ *)
(** ** Invariants of responses *)

Lemma safe_ret {A} (P : A -> Prop) a : P a -> safe P (ret a).
Proof. intros H s. exact H. Qed.

Lemma safe_throw {A} (P : A -> Prop) e : safe P (throw e).
Proof. intros s. exact I. Qed.

Lemma safe_bind {A B} (Q : A -> Prop) (P : B -> Prop) m k :
  safe Q m -> (forall a, Q a -> safe P (k a)) -> safe P (bind m k).
Proof.
  intros Hm Hk s. unfold bind. specialize (Hm s).
  destruct (m s) as [[a|e] s1]; simpl in *; [apply Hk; exact Hm | exact I].
Qed.

Lemma safe_bind_any {A B} (P : B -> Prop) (m : M A) k :
  (forall a, safe P (k a)) -> safe P (bind m k).
Proof.
  intros Hk s. unfold bind.
  destruct (m s) as [[a|e] s1]; simpl in *; [apply Hk | exact I].
Qed.

Lemma safe_try {A} (P : A -> Prop) m h :
  safe P m -> (forall e, safe P (h e)) -> safe P (try_catch m h).
Proof.
  intros Hm Hh s. unfold try_catch. specialize (Hm s).
  destruct (m s) as [[a|e] s1]; simpl in *; [exact Hm | apply Hh].
Qed.

Lemma total_ret {A} (P : A -> Prop) a : P a -> total P (ret a).
Proof. intros H s. exists a, s. split; [reflexivity | exact H]. Qed.

Lemma total_bind {A B} (Q : A -> Prop) (P : B -> Prop) m k :
  total Q m -> (forall a, Q a -> total P (k a)) -> total P (bind m k).
Proof.
  intros Hm Hk s. destruct (Hm s) as [a [s1 [E Ha]]].
  unfold bind. rewrite E. apply Hk, Ha.
Qed.

Lemma total_try {A} (P : A -> Prop) m h :
  safe P m -> (forall e, total P (h e)) -> total P (try_catch m h).
Proof.
  intros Hm Hh s. unfold try_catch. specialize (Hm s).
  destruct (m s) as [[a|e] s1]; simpl in *.
  - exists a, s1. split; [reflexivity | exact Hm].
  - apply Hh.
Qed.

Lemma check_matched_team_ends w tok t : safe ends_session (check_matched_team w tok t).
Proof.
  unfold check_matched_team. apply safe_bind_any. intros td.
  destruct (default [] (plants td)); [apply safe_ret; reflexivity|].
  apply safe_bind_any. intros tp. destruct tp; apply safe_ret; reflexivity.
Qed.

Lemma team_status_catch_ends e : total ends_session (team_status_catch e).
Proof. unfold team_status_catch. destruct (is_unauthorized e); apply total_ret; reflexivity. Qed.

(* ------------------------------------------------------------------ *)
(** ** Team-name matching *)

Lemma find_first {A} (f : A -> bool) pre t post :
  Forall (fun x => f x = false) pre -> f t = true -> find f (pre ++ t :: post) = Some t.
Proof.
  intros Hpre Ht. induction Hpre as [|x pre Hx _ IH]; simpl; [now rewrite Ht|].
  now rewrite Hx.
Qed.

Lemma team_handler_after_teams w uid tn req s s1 tok ts :
  getAccessToken w req uid s = (Ok (Some tok), s1) -> tok <> ""%string ->
  trim tn <> ""%string ->
  w_teams w tok = HOk {| teams := Some ts |} -> ts <> [] ->
  handleCheckTeamPlantStatus w uid (Some tn) req s =
  try_catch (match find (team_matches (normalize_team_name tn)) ts with
             | None => ret (team_not_found_response tn ts)
             | Some matchingTeam => check_matched_team w tok matchingTeam
             end)
            team_status_catch (add_trace s1 [EGet (teams_request w tok)]).
Proof.
  intros Htok Hne Htrim Hteams Hts.
  unfold handleCheckTeamPlantStatus.
  rewrite (try_bind_ok _ _ _ _ _ _ Htok).
  apply String.eqb_neq in Hne, Htrim. cbv beta iota. rewrite Hne, Htrim.
  rewrite (try_bind_ok _ _ _ _ _ _ (getTeams_ok w tok s1 _ Hteams)).
  cbv beta iota. simpl default.
  destruct ts as [|t0 ts']; [contradiction|]. reflexivity.
Qed.

Lemma lower_ascii_idem c : lower_ascii (lower_ascii c) = lower_ascii c.
Proof.
  destruct c as [b0 b1 b2 b3 b4 b5 b6 b7].
  destruct b0, b1, b2, b3, b4, b5, b6, b7; reflexivity.
Qed.

Lemma toLowerCase_idem x : toLowerCase (toLowerCase x) = toLowerCase x.
Proof. induction x as [|c x IH]; simpl; [reflexivity|]. now rewrite lower_ascii_idem, IH. Qed.

Lemma normalize_case_insensitive x :
  normalize_team_name (toLowerCase x) = normalize_team_name x.
Proof. unfold normalize_team_name. now rewrite toLowerCase_idem. Qed.

Lemma total_safe {A} (P : A -> Prop) m : total P m -> safe P m.
Proof. intros H s. destruct (H s) as [a [s' [E Ha]]]. now rewrite E. Qed.

Lemma selected_team_ends w tok t s :
  match fst (try_catch (check_matched_team w tok t) team_status_catch s) with
  | Ok r => shouldEndSession r = true
  | Throw _ => True
  end.
Proof.
  apply (safe_try ends_session).
  - apply check_matched_team_ends.
  - intros e. apply total_safe, team_status_catch_ends.
Qed.

Lemma find_some_of_in {A} (f : A -> bool) t ts :
  In t ts -> f t = true -> exists m, find f ts = Some m.
Proof.
  intros Hin Ht. induction ts as [|x ts IH]; [destruct Hin|].
  simpl. destruct (f x) eqn:Ex; [eauto|].
  destruct Hin as [<-|Hin]; [congruence | auto].
Qed.

Lemma empty_name_matches n t :
  str_or (team_name t) "" = ""%string -> team_matches n t = true.
Proof.
  intros H. unfold team_matches. rewrite H. simpl.
  apply orb_true_intro. left. apply orb_true_intro. right.
  destruct n; reflexivity.
Qed.

(* ------------------------------------------------------------------ *)
(** ** Claims on team-name matching *)

(** C6: matching in [handleCheckTeamPlantStatus] ignores the case of the
    spoken name, strips a leading "team " and accepts a substring; the
    spoken "Team Kitchen" normalizes to "kitchen", which matches a team
    named "kitchen" (and one named "Kitchen Garden"), and the handler then
    goes on with that team when no earlier team matches. *)
Theorem team_kitchen_selected :
  normalize_team_name "Team Kitchen" = "kitchen"%string /\
  (forall x, normalize_team_name (toLowerCase x) = normalize_team_name x) /\
  team_matches (normalize_team_name "Team Kitchen") Samples.kitchen = true /\
  team_matches (normalize_team_name "Team Kitchen") Samples.kitchen_garden = true /\
  (forall w uid req s s1 tok pre t post,
     getAccessToken w req uid s = (Ok (Some tok), s1) -> tok <> ""%string ->
     team_name t = Some "kitchen"%string ->
     w_teams w tok = HOk {| teams := Some (pre ++ t :: post) |} ->
     Forall (fun x => team_matches "kitchen" x = false) pre ->
     handleCheckTeamPlantStatus w uid (Some "Team Kitchen"%string) req s =
     try_catch (check_matched_team w tok t) team_status_catch
               (add_trace s1 [EGet (teams_request w tok)])).
Proof.
  split; [reflexivity|]. split; [apply normalize_case_insensitive|].
  split; [reflexivity|]. split; [reflexivity|].
  intros w uid req s s1 tok pre t post Htok Hne Hname Hteams Hpre.
  rewrite (team_handler_after_teams w uid _ req s s1 tok (pre ++ t :: post) Htok Hne).
  - change (normalize_team_name "Team Kitchen") with "kitchen"%string.
    rewrite (find_first _ pre t post Hpre); [reflexivity|].
    unfold team_matches. rewrite Hname. reflexivity.
  - discriminate.
  - exact Hteams.
  - destruct pre; discriminate.
Qed.

Lemma team_kitchen_selected_witness :
  let w := Samples.world [Samples.kitchen; Samples.office] (HStatus 401) Samples.two_teams None true in
  let req := Samples.event "IntentRequest" None (Some "tok"%string) in
  handleCheckTeamPlantStatus w "u" (Some "Team Kitchen"%string) req Samples.empty_st =
  try_catch (check_matched_team w "tok" Samples.kitchen) team_status_catch
            (add_trace Samples.empty_st [EGet (teams_request w "tok")]).
Proof.
  intros w req. destruct team_kitchen_selected as [_ [_ [_ [_ H]]]].
  apply (H w "u"%string req Samples.empty_st Samples.empty_st "tok"%string [] Samples.kitchen
           [Samples.office]).
  - reflexivity.
  - discriminate.
  - reflexivity.
  - reflexivity.
  - constructor.
Defined.

(** C7 (as written): an ambiguous spoken name does not reprompt. "kitchen"
    matches both "kitchen" and "Kitchen Garden"; the handler selects the
    first and answers with a closed session and no reprompt. *)
Lemma ambiguous_team_selected_counterexample :
  let w := Samples.world [Samples.kitchen; Samples.kitchen_garden] (HStatus 401)
             Samples.two_teams None true in
  let req := Samples.event "IntentRequest" None (Some "tok"%string) in
  length (filter (team_matches (normalize_team_name "kitchen"))
                 [Samples.kitchen; Samples.kitchen_garden]) = 2%nat /\
  exists r, fst (handleCheckTeamPlantStatus w "u" (Some "kitchen"%string) req Samples.empty_st) = Ok r /\
            shouldEndSession r = true /\ reprompt r = None.
Proof.
  intros w req. split; [reflexivity|].
  eexists. split; [vm_compute; reflexivity | split; reflexivity].
Qed.

(** C7 (amended): once teams are listed, a spoken name that matches no team
    gives the reprompt that lists the team names with the session left
    open; otherwise the first matching team in list order is selected
    (even if later teams match too), and every answer reached from there
    closes the session. *)
Theorem team_lookup_outcomes w uid tn req s s1 tok ts :
  getAccessToken w req uid s = (Ok (Some tok), s1) -> tok <> ""%string ->
  trim tn <> ""%string -> w_teams w tok = HOk {| teams := Some ts |} -> ts <> [] ->
  (find (team_matches (normalize_team_name tn)) ts = None ->
   handleCheckTeamPlantStatus w uid (Some tn) req s =
     (Ok (team_not_found_response tn ts), add_trace s1 [EGet (teams_request w tok)]) /\
   shouldEndSession (team_not_found_response tn ts) = false /\
   reprompt (team_not_found_response tn ts) =
     Some ("Which team would you like to check? Your teams are: " ++ team_names ts ++ ".")%string) /\
  (forall pre t post, ts = pre ++ t :: post ->
   Forall (fun x => team_matches (normalize_team_name tn) x = false) pre ->
   team_matches (normalize_team_name tn) t = true ->
   handleCheckTeamPlantStatus w uid (Some tn) req s =
     try_catch (check_matched_team w tok t) team_status_catch
               (add_trace s1 [EGet (teams_request w tok)]) /\
   match fst (handleCheckTeamPlantStatus w uid (Some tn) req s) with
   | Ok r => shouldEndSession r = true
   | Throw _ => True
   end).
Proof.
  intros Htok Hne Htrim Hteams Hts.
  rewrite (team_handler_after_teams w uid tn req s s1 tok ts Htok Hne Htrim Hteams Hts).
  split.
  - intros Hnone. rewrite Hnone. repeat split.
  - intros pre t post -> Hpre Ht. rewrite (find_first _ pre t post Hpre Ht).
    split; [reflexivity | apply selected_team_ends].
Qed.

Lemma team_lookup_outcomes_witness :
  let w := Samples.world [Samples.kitchen; Samples.office] (HStatus 401) Samples.two_teams None true in
  let req := Samples.event "IntentRequest" None (Some "tok"%string) in
  handleCheckTeamPlantStatus w "u" (Some "garage"%string) req Samples.empty_st =
    (Ok (team_not_found_response "garage" [Samples.kitchen; Samples.office]),
     add_trace Samples.empty_st [EGet (teams_request w "tok")]) /\
  handleCheckTeamPlantStatus w "u" (Some "office"%string) req Samples.empty_st =
    try_catch (check_matched_team w "tok" Samples.office) team_status_catch
              (add_trace Samples.empty_st [EGet (teams_request w "tok")]).
Proof.
  intros w req.
  destruct (team_lookup_outcomes w "u"%string "garage"%string req Samples.empty_st Samples.empty_st
              "tok"%string [Samples.kitchen; Samples.office]
              ltac:(reflexivity) ltac:(discriminate) ltac:(discriminate) ltac:(reflexivity)
              ltac:(discriminate)) as [Ha _].
  destruct (team_lookup_outcomes w "u"%string "office"%string req Samples.empty_st Samples.empty_st
              "tok"%string [Samples.kitchen; Samples.office]
              ltac:(reflexivity) ltac:(discriminate) ltac:(discriminate) ltac:(reflexivity)
              ltac:(discriminate)) as [_ Hb].
  split.
  - exact (proj1 (Ha ltac:(reflexivity))).
  - exact (proj1 (Hb [Samples.kitchen] Samples.office [] eq_refl
                     ltac:(repeat constructor) ltac:(reflexivity))).
Defined.

(** C10: a team whose name is missing or empty matches every spoken name
    (the empty string is a substring of any string); when such a team is
    listed, [handleCheckTeamPlantStatus] always selects some team, the
    first match, and never answers with the "team not found" reprompt. *)
Theorem nameless_team_always_matches :
  (forall n t, str_or (team_name t) "" = ""%string -> team_matches n t = true) /\
  (forall w uid tn req s s1 tok ts t,
     getAccessToken w req uid s = (Ok (Some tok), s1) -> tok <> ""%string ->
     trim tn <> ""%string -> w_teams w tok = HOk {| teams := Some ts |} ->
     In t ts -> str_or (team_name t) "" = ""%string ->
     (exists m, find (team_matches (normalize_team_name tn)) ts = Some m /\
                handleCheckTeamPlantStatus w uid (Some tn) req s =
                try_catch (check_matched_team w tok m) team_status_catch
                          (add_trace s1 [EGet (teams_request w tok)])) /\
     (forall tn' ts', fst (handleCheckTeamPlantStatus w uid (Some tn) req s) <>
                      Ok (team_not_found_response tn' ts'))).
Proof.
  split; [exact empty_name_matches|].
  intros w uid tn req s s1 tok ts t Htok Hne Htrim Hteams Hin Hname.
  assert (Hts : ts <> []) by (intros ->; destruct Hin).
  destruct (find_some_of_in (team_matches (normalize_team_name tn)) t ts Hin
              (empty_name_matches _ _ Hname)) as [m Hm].
  rewrite (team_handler_after_teams w uid tn req s s1 tok ts Htok Hne Htrim Hteams Hts), Hm.
  split; [eauto|].
  intros tn' ts' E.
  pose proof (selected_team_ends w tok m (add_trace s1 [EGet (teams_request w tok)])) as H.
  rewrite E in H. discriminate H.
Qed.

Lemma nameless_team_always_matches_witness :
  let w := Samples.world [Samples.kitchen; Samples.nameless] (HStatus 401) Samples.two_teams None true in
  let req := Samples.event "IntentRequest" None (Some "tok"%string) in
  fst (handleCheckTeamPlantStatus w "u" (Some "garage"%string) req Samples.empty_st) <>
  Ok (team_not_found_response "garage" [Samples.kitchen; Samples.nameless]).
Proof.
  intros w req. destruct nameless_team_always_matches as [_ H].
  apply (H w "u"%string "garage"%string req Samples.empty_st Samples.empty_st "tok"%string
           [Samples.kitchen; Samples.nameless] Samples.nameless);
    [reflexivity | discriminate | discriminate | reflexivity | right; left; reflexivity | reflexivity].
Defined.

(* ------------------------------------------------------------------ *)
(** ** Responses of the dispatcher *)

Lemma app_nonempty_r a b : b <> ""%string -> (a ++ b)%string <> ""%string.
Proof. intros H. destruct a; simpl; [exact H | discriminate]. Qed.

Ltac speech_ok :=
  unfold response_ok; cbn [outputSpeech reprompt shouldEndSession];
  split; [eexists; split; [reflexivity|] | reflexivity];
  repeat match goal with |- context[if ?b then _ else _] => destruct b end;
  first [discriminate | apply app_nonempty_r; discriminate].

Lemma createErrorResponse_ok m : m <> ""%string -> response_ok (createErrorResponse m).
Proof. intros H. split; [eexists; split; [reflexivity | exact H] | reflexivity]. Qed.

Lemma health_response_ok ph : ph_status ph <> ""%string -> response_ok (health_response ph).
Proof. intros H. split; [eexists; split; [reflexivity | exact H] | reflexivity]. Qed.

Lemma list_status_response_ok ps : response_ok (list_status_response ps).
Proof. unfold list_status_response. speech_ok. Qed.

Lemma team_status_response_ok t ps : response_ok (team_status_response t ps).
Proof. unfold team_status_response. speech_ok. Qed.

Lemma team_not_found_response_ok tn ts : response_ok (team_not_found_response tn ts).
Proof. speech_ok. Qed.

Lemma fixed_responses_ok :
  response_ok health_link_response /\ response_ok status_link_response /\
  response_ok status_unauthorized_response /\ response_ok no_teams_response /\
  response_ok no_plants_response /\ response_ok ask_team_response /\
  response_ok fallback_generic_response /\ response_ok handleLaunchRequest /\
  response_ok handleHelpIntent /\ response_ok handleStopIntent.
Proof. repeat (split; [speech_ok|]); speech_ok. Qed.

Lemma checkPlantHealth_status_nonempty w tok :
  safe (fun ph => ph_status ph <> ""%string) (checkPlantHealth w tok).
Proof.
  unfold checkPlantHealth. apply safe_try; [|intros; apply safe_throw].
  apply safe_bind_any. intros data.
  destruct (hd_status data) as [[| | |str]|].
  - apply safe_ret. discriminate.
  - destruct (truthy _); [apply safe_throw | apply safe_ret; discriminate].
  - destruct (truthy _); [apply safe_throw | apply safe_ret; discriminate].
  - destruct (String.eqb_spec str ""); apply safe_ret; simpl; [discriminate | assumption].
  - apply safe_ret. discriminate.
Qed.

Lemma handleCheckPlantHealth_ok w uid req : total response_ok (handleCheckPlantHealth w uid req).
Proof.
  unfold handleCheckPlantHealth.
  apply total_try; [|intros; apply total_ret, createErrorResponse_ok; discriminate].
  apply safe_bind_any. intros tok.
  apply (safe_bind (fun r => match r with
                             | inl ph => ph_status ph <> ""%string
                             | inr resp => response_ok resp
                             end)).
  - destruct (truthy_str tok).
    + apply (safe_bind (fun ph => ph_status ph <> ""%string));
        [apply checkPlantHealth_status_nonempty | intros ph H; apply safe_ret, H].
    + apply safe_try.
      * apply (safe_bind (fun ph => ph_status ph <> ""%string));
          [apply checkPlantHealth_status_nonempty | intros ph H; apply safe_ret, H].
      * intros e. unfold unauthenticated_health_error.
        destruct e as [| [st|] code | |]; try apply safe_throw.
        destruct (_ || _)%bool; [apply safe_ret, fixed_responses_ok | apply safe_throw].
  - intros [ph|resp] H; apply safe_ret; [apply health_response_ok, H | exact H].
Qed.

Lemma list_status_catch_ok e : total response_ok (list_status_catch e).
Proof.
  unfold list_status_catch. destruct (is_unauthorized e); apply total_ret;
    [apply fixed_responses_ok | apply createErrorResponse_ok; discriminate].
Qed.

Lemma team_status_catch_ok e : total response_ok (team_status_catch e).
Proof.
  unfold team_status_catch. destruct (is_unauthorized e); apply total_ret;
    [apply fixed_responses_ok | apply createErrorResponse_ok; discriminate].
Qed.

Lemma handleListPlantStatus_ok w uid req : total response_ok (handleListPlantStatus w uid req).
Proof.
  unfold handleListPlantStatus. apply total_try; [|apply list_status_catch_ok].
  apply safe_bind_any. intros [t|]; [|apply safe_ret, fixed_responses_ok].
  destruct (String.eqb t ""); [apply safe_ret, fixed_responses_ok|].
  apply safe_bind_any. intros tr.
  destruct (default [] (teams tr)); [apply safe_ret, fixed_responses_ok|].
  apply safe_bind_any. intros ps.
  destruct ps; apply safe_ret; [apply fixed_responses_ok | apply list_status_response_ok].
Qed.

Lemma check_matched_team_ok w tok t : safe response_ok (check_matched_team w tok t).
Proof.
  unfold check_matched_team. apply safe_bind_any. intros td.
  destruct (default [] (plants td)); [apply safe_ret; speech_ok|].
  apply safe_bind_any. intros tp.
  destruct tp; apply safe_ret; [speech_ok | apply team_status_response_ok].
Qed.

Lemma handleCheckTeamPlantStatus_ok w uid tn req :
  total response_ok (handleCheckTeamPlantStatus w uid tn req).
Proof.
  unfold handleCheckTeamPlantStatus. apply total_try; [|apply team_status_catch_ok].
  apply safe_bind_any. intros [t|]; [|apply safe_ret, fixed_responses_ok].
  destruct (String.eqb t ""); [apply safe_ret, fixed_responses_ok|].
  destruct tn as [n|]; [|apply safe_ret, fixed_responses_ok].
  destruct (String.eqb (trim n) ""); [apply safe_ret, fixed_responses_ok|].
  apply safe_bind_any. intros tr.
  destruct (default [] (teams tr)) as [|t0 ts]; [apply safe_ret, fixed_responses_ok|].
  destruct (find _ _); [apply check_matched_team_ok | apply safe_ret, team_not_found_response_ok].
Qed.

Lemma handleFallbackIntent_ok w uid req : total response_ok (handleFallbackIntent w uid req).
Proof.
  unfold handleFallbackIntent.
  apply (total_bind (fun found => match found with Some r => response_ok r | None => True end)).
  - apply total_try; [|intros; apply total_ret; exact I].
    apply safe_bind_any. intros [t|]; [|apply safe_ret; exact I].
    destruct (String.eqb t ""); [apply safe_ret; exact I|].
    apply safe_bind_any. intros tr.
    destruct (default [] (teams tr)); apply safe_ret; [exact I | speech_ok].
  - intros [r|] H; apply total_ret; [exact H | apply fixed_responses_ok].
Qed.

(** C9: every intent, the unknown one included, gets an answer (nothing
    escapes [handleIntentRequest]) that speaks a non-empty text and keeps
    the session open exactly when it reprompts; Launch and Help keep it
    open, Stop and Cancel close it, and an [IntentRequest] is answered by
    [handleIntentRequest]. *)
Theorem dispatcher_responses_well_formed :
  (forall w i uid req, total response_ok (handleIntentRequest w i uid req)) /\
  response_ok handleLaunchRequest /\ shouldEndSession handleLaunchRequest = false /\
  response_ok handleHelpIntent /\ shouldEndSession handleHelpIntent = false /\
  response_ok handleStopIntent /\ shouldEndSession handleStopIntent = true /\
  (forall w i uid req s, intent_name i = "AMAZON.HelpIntent"%string ->
     handleIntentRequest w i uid req s = (Ok handleHelpIntent, s)) /\
  (forall w i uid req s,
     intent_name i = "AMAZON.StopIntent"%string \/ intent_name i = "AMAZON.CancelIntent"%string ->
     handleIntentRequest w i uid req s = (Ok handleStopIntent, s)) /\
  (forall w req s, request_type req = "LaunchRequest"%string ->
     handleAlexaRequest w req s = (Ok handleLaunchRequest, s)) /\
  (forall w req i s, request_type req = "IntentRequest"%string -> request_intent req = Some i ->
     exists r s', handleAlexaRequest w req s = (Ok r, s') /\ response_ok r).
Proof.
  assert (Hall : forall w i uid req, total response_ok (handleIntentRequest w i uid req)).
  { intros w i uid req. unfold handleIntentRequest.
    destruct (String.eqb _ "CheckTeamPlantStatusIntent"); [apply handleCheckTeamPlantStatus_ok|].
    destruct (String.eqb _ "CheckPlantHealthIntent"); [apply handleCheckPlantHealth_ok|].
    destruct (String.eqb _ "ListPlantStatusIntent"); [apply handleListPlantStatus_ok|].
    destruct (String.eqb _ "AMAZON.FallbackIntent"); [apply handleFallbackIntent_ok|].
    destruct (String.eqb _ "AMAZON.HelpIntent"); [apply total_ret, fixed_responses_ok|].
    destruct (_ || _)%bool; apply total_ret;
      [apply fixed_responses_ok | apply createErrorResponse_ok; discriminate]. }
  pose proof fixed_responses_ok as F.
  split; [exact Hall|].
  split; [apply F|]. split; [reflexivity|].
  split; [apply F|]. split; [reflexivity|].
  split; [apply F|]. split; [reflexivity|].
  split.
  { intros w i uid req s H. unfold handleIntentRequest. rewrite H. reflexivity. }
  split.
  { intros w i uid req s [H|H]; unfold handleIntentRequest; rewrite H; reflexivity. }
  split.
  { intros w req s H. unfold handleAlexaRequest. rewrite H. reflexivity. }
  intros w req i s Hty Hi. unfold handleAlexaRequest. rewrite Hty, Hi. simpl.
  apply Hall.
Qed.

Lemma dispatcher_responses_well_formed_witness :
  let w := Samples.world [Samples.kitchen] (HStatus 401) Samples.two_teams None true in
  let i := {| intent_name := "AMAZON.CancelIntent"; intent_teamName := None |} in
  let req := Samples.event "IntentRequest" (Some i) None in
  handleIntentRequest w i "u" req Samples.empty_st = (Ok handleStopIntent, Samples.empty_st) /\
  (exists r s', handleAlexaRequest w req Samples.empty_st = (Ok r, s') /\ response_ok r) /\
  handleAlexaRequest w (Samples.event "LaunchRequest" None None) Samples.empty_st =
    (Ok handleLaunchRequest, Samples.empty_st) /\
  handleIntentRequest w {| intent_name := "AMAZON.HelpIntent"; intent_teamName := None |} "u" req
    Samples.empty_st = (Ok handleHelpIntent, Samples.empty_st).
Proof.
  intros w i req.
  destruct dispatcher_responses_well_formed as (_ & _ & _ & _ & _ & _ & _ & Hh & Hs & Hl & Hi).
  split; [|split; [|split]].
  - apply (Hs w i "u"%string req Samples.empty_st). right. reflexivity.
  - apply (Hi w req i Samples.empty_st); reflexivity.
  - apply (Hl w (Samples.event "LaunchRequest" None None) Samples.empty_st). reflexivity.
  - apply (Hh w {| intent_name := "AMAZON.HelpIntent"; intent_teamName := None |} "u"%string req
             Samples.empty_st). reflexivity.
Defined.

(* ------------------------------------------------------------------ *)
(** ** Token storage over time *)

Lemma storeToken_ok w uid tok s :
  w_store_put_ok w = true ->
  storeToken w uid tok s =
  (Ok tt, {| st_store := <[uid := manual_item w tok]> (st_store s);
             st_trace := st_trace s ++ [EStorePut uid (manual_item w tok)] |}).
Proof. intros H. unfold storeToken, bind, emit. simpl. now rewrite H. Qed.

Lemma getAccessToken_expired_no_refresh w req uid s it :
  no_embedded_token req -> w_store_get_ok w = true -> st_store s !! uid = Some it ->
  item_expiresAt it <= w_now w -> item_refreshToken it = None ->
  getAccessToken w req uid s =
  (Throw (ExnError "No refresh token available"), add_trace s [EStoreGet uid]).
Proof.
  intros Hno Hg Hr Hle Hrt.
  rewrite (getAccessToken_record w req uid s it Hno Hg Hr).
  unfold ensureValidTokens. simpl.
  replace (w_now w >=? item_expiresAt it) with true by (symmetry; apply Z.geb_le; lia).
  now rewrite Hrt.
Qed.

(** A token saved by [storeToken] is what [getAccessToken] returns, for an
    event without a token, until 365 days after it was saved; the static
    token is not consulted then. *)
Theorem storeToken_then_getAccessToken w uid tok req s t1 :
  no_embedded_token req -> w_store_put_ok w = true -> w_store_get_ok w = true ->
  t1 < w_now w + 365 * 24 * 60 * 60 * 1000 ->
  let s1 := snd (storeToken w uid tok s) in
  fst (storeToken w uid tok s) = Ok tt /\
  getAccessToken (with_now w t1) req uid s1 = (Ok (Some tok), add_trace s1 [EStoreGet uid]).
Proof.
  intros Hno Hput Hget Ht s1. subst s1. rewrite (storeToken_ok w uid tok s Hput).
  split; [reflexivity|].
  apply (getAccessToken_valid_stored (with_now w t1) req uid _ (manual_item w tok) Hno Hget).
  - simpl. apply lookup_insert_eq.
  - simpl. lia.
Qed.

Lemma storeToken_then_getAccessToken_witness :
  let w := Samples.world [] (HStatus 401) Samples.two_teams (Some "static"%string) true in
  let req := Samples.event "IntentRequest" None None in
  let s1 := snd (storeToken w "u" "manual" Samples.empty_st) in
  fst (storeToken w "u" "manual" Samples.empty_st) = Ok tt /\
  getAccessToken (with_now w 2000) req "u" s1 = (Ok (Some "manual"%string), add_trace s1 [EStoreGet "u"]).
Proof.
  intros w req s1.
  exact (storeToken_then_getAccessToken w "u" "manual" req Samples.empty_st 2000
           eq_refl eq_refl eq_refl ltac:(vm_compute; reflexivity)).
Defined.

(** From 365 days after [storeToken] on, the saved token has expired and,
    having no refresh token, makes [getAccessToken] fail with 'No refresh
    token available' (the static token is not used instead). *)
Theorem stored_token_expires_after_a_year w uid tok req s t1 :
  no_embedded_token req -> w_store_put_ok w = true -> w_store_get_ok w = true ->
  w_now w + 365 * 24 * 60 * 60 * 1000 <= t1 ->
  let s1 := snd (storeToken w uid tok s) in
  getAccessToken (with_now w t1) req uid s1 =
  (Throw (ExnError "No refresh token available"), add_trace s1 [EStoreGet uid]).
Proof.
  intros Hno Hput Hget Ht s1. subst s1. rewrite (storeToken_ok w uid tok s Hput).
  apply (getAccessToken_expired_no_refresh (with_now w t1) req uid _ (manual_item w tok) Hno Hget).
  - simpl. apply lookup_insert_eq.
  - simpl. lia.
  - reflexivity.
Qed.

Lemma stored_token_expires_after_a_year_witness :
  let w := Samples.world [] (HStatus 401) Samples.two_teams (Some "static"%string) true in
  let req := Samples.event "IntentRequest" None None in
  let s1 := snd (storeToken w "u" "manual" Samples.empty_st) in
  getAccessToken (with_now w 31536001000) req "u" s1 =
  (Throw (ExnError "No refresh token available"), add_trace s1 [EStoreGet "u"]).
Proof.
  intros w req s1.
  exact (stored_token_expires_after_a_year w "u" "manual" req Samples.empty_st 31536001000
           eq_refl eq_refl eq_refl ltac:(vm_compute; discriminate)).
Defined.

(** A refresh stores the new access token without any refresh token, even
    when the token endpoint returned one; so once the new token expires in
    turn, [getAccessToken] fails with 'No refresh token available'. *)
Theorem refresh_drops_refresh_token w req uid s it rt c r t2 :
  no_embedded_token req -> w_store_get_ok w = true -> st_store s !! uid = Some it ->
  item_expiresAt it <= w_now w ->
  item_refreshToken it = Some rt -> rt <> ""%string ->
  w_credentials w = Some c -> w_refresh w rt = HOk r -> w_store_put_ok w = true ->
  w_now w + expires_in r * 1000 <= t2 ->
  let s1 := snd (getAccessToken w req uid s) in
  fst (getAccessToken w req uid s) = Ok (Some (access_token r)) /\
  st_store s1 !! uid = Some (refreshed_item w r) /\
  item_refreshToken (refreshed_item w r) = None /\
  getAccessToken (with_now w t2) req uid s1 =
  (Throw (ExnError "No refresh token available"), add_trace s1 [EStoreGet uid]).
Proof.
  intros Hno Hg Hr Hle Hrt Hne Hc Hrf Hput Ht s1. subst s1.
  rewrite (getAccessToken_expired_refresh w req uid s it rt c r Hno Hg Hr Hle Hrt Hne Hc Hrf Hput).
  simpl. split; [reflexivity|]. split; [apply lookup_insert_eq|]. split; [reflexivity|].
  apply (getAccessToken_expired_no_refresh (with_now w t2) req uid _ (refreshed_item w r) Hno Hg).
  - simpl. apply lookup_insert_eq.
  - simpl. lia.
  - reflexivity.
Qed.

Lemma refresh_drops_refresh_token_witness :
  let w := Samples.world [] (HStatus 401) Samples.two_teams None true in
  let req := Samples.event "IntentRequest" None None in
  let s := Samples.stored_st Samples.expired_item in
  let s1 := snd (getAccessToken w req "u" s) in
  getAccessToken (with_now w 4000000) req "u" s1 =
  (Throw (ExnError "No refresh token available"), add_trace s1 [EStoreGet "u"]).
Proof.
  intros w req s s1.
  destruct (refresh_drops_refresh_token w req "u" s Samples.expired_item "r"
              {| clientId := "id"; clientSecret := "secret"; authUrl := "https://auth";
                 tokenUrl := "https://auth/token"; apiBaseUrl := "https://api.plantranger.com" |}
              {| access_token := "fresh"; refresh_token := None;
                 expires_in := 3600; token_type := "Bearer" |} 4000000
              eq_refl eq_refl eq_refl ltac:(vm_compute; discriminate) eq_refl
              ltac:(discriminate) eq_refl eq_refl eq_refl ltac:(vm_compute; discriminate))
    as (_ & _ & _ & H).
  exact H.
Defined.

(** When the store write after a successful refresh fails, [getAccessToken]
    fails with the AWS error and the stored item is left as it was, although
    the refresh token has already been sent to the token endpoint. *)
Theorem refresh_store_failure w req uid s it rt c r :
  no_embedded_token req -> w_store_get_ok w = true -> st_store s !! uid = Some it ->
  item_expiresAt it <= w_now w ->
  item_refreshToken it = Some rt -> rt <> ""%string ->
  w_credentials w = Some c -> w_refresh w rt = HOk r -> w_store_put_ok w = false ->
  getAccessToken w req uid s =
  (Throw ExnAws, add_trace s [EStoreGet uid; ESecretGet; ERefresh (tokenUrl c) rt;
                              EStorePut uid (refreshed_item w r)]).
Proof.
  intros Hno Hg Hr Hle Hrt Hne Hc Hrf Hput.
  rewrite (getAccessToken_record w req uid s it Hno Hg Hr).
  unfold ensureValidTokens. simpl.
  replace (w_now w >=? item_expiresAt it) with true by (symmetry; apply Z.geb_le; lia).
  rewrite Hrt. apply String.eqb_neq in Hne. rewrite Hne.
  unfold bind, getCredentials, refreshAccessToken, updateTokens, emit, ret, add_trace. simpl.
  rewrite Hc, Hrf. simpl. rewrite Hput. simpl.
  now rewrite <- !app_assoc.
Qed.

Lemma refresh_store_failure_witness :
  let w := {| w_now := 1000; w_apiBaseUrl := "https://api.plantranger.com"; w_staticToken := None;
              w_store_get_ok := true; w_store_put_ok := false;
              w_credentials := w_credentials (Samples.world [] (HStatus 401) Samples.two_teams None true);
              w_refresh := w_refresh (Samples.world [] (HStatus 401) Samples.two_teams None true);
              w_health := fun _ => HStatus 500; w_teams := fun _ => HStatus 500;
              w_team := fun _ _ => HStatus 500; w_plant := fun _ _ => HStatus 500 |} in
  let req := Samples.event "IntentRequest" None None in
  fst (getAccessToken w req "u" (Samples.stored_st Samples.expired_item)) = Throw ExnAws.
Proof.
  intros w req.
  rewrite (refresh_store_failure w req "u" (Samples.stored_st Samples.expired_item)
             Samples.expired_item "r"
             {| clientId := "id"; clientSecret := "secret"; authUrl := "https://auth";
                tokenUrl := "https://auth/token"; apiBaseUrl := "https://api.plantranger.com" |}
             {| access_token := "fresh"; refresh_token := None;
                expires_in := 3600; token_type := "Bearer" |}
             eq_refl eq_refl eq_refl ltac:(vm_compute; discriminate) eq_refl
             ltac:(discriminate) eq_refl eq_refl eq_refl).
  reflexivity.
Defined.

(* ------------------------------------------------------------------ *)
(** ** API client: recommendations and health status *)

(** [getPlantRecommendations] never fails: it performs one GET without an
    Authorization header (the token it is given is not used), returns the
    body's [recommendations] or an empty list, and on any error the single
    entry 'Unable to retrieve recommendations at this time'. *)
Theorem getPlantRecommendations_never_fails w ans tok tok' s :
  getPlantRecommendations w ans tok s =
  (Ok (match ans with
       | HOk d => default [] (recommendations d)
       | _ => ["Unable to retrieve recommendations at this time"%string]
       end), add_trace s [EGet (recommendations_request w)]) /\
  getPlantRecommendations w ans tok s = getPlantRecommendations w ans tok' s /\
  Forall (fun h => fst h <> "Authorization"%string) (rq_headers (recommendations_request w)).
Proof.
  split; [|split].
  - unfold getPlantRecommendations, try_catch, bind, axios_get, emit, throw, ret, add_trace.
    simpl. destruct ans; reflexivity.
  - reflexivity.
  - repeat constructor. simpl. discriminate.
Qed.

(** With a 2xx answer, [checkPlantHealth] reports the body's status: a
    missing or falsy status (undefined, null, false, 0, '') becomes
    'Unknown', a non-empty string is kept; any other truthy status (true, a
    non-zero number) makes [status.toLowerCase()] raise, which the catch
    turns into 'Failed to retrieve plant health data'. *)
Theorem checkPlantHealth_status_value w tok s data :
  w_health w tok = HOk data ->
  (truthy (hd_status data) = false ->
   checkPlantHealth w tok s =
   (Ok {| ph_status := "Unknown"; ph_message := getStatusMessage "Unknown";
          ph_recommendations := getRecommendations "Unknown" |},
    add_trace s [EGet (health_request w tok)])) /\
  (forall str, hd_status data = Some (JStr str) -> str <> ""%string ->
   checkPlantHealth w tok s =
   (Ok {| ph_status := str; ph_message := getStatusMessage str;
          ph_recommendations := getRecommendations str |},
    add_trace s [EGet (health_request w tok)])) /\
  (forall v, hd_status data = Some v -> truthy (Some v) = true -> (forall str, v <> JStr str) ->
   checkPlantHealth w tok s =
   (Throw (ExnError "Failed to retrieve plant health data"),
    add_trace s [EGet (health_request w tok)])).
Proof.
  intros H. unfold checkPlantHealth.
  split; [|split].
  - intros Hf. run_call H.
    destruct (hd_status data) as [[|b|z|str]|]; simpl in Hf |- *; rewrite ?Hf; try reflexivity.
    apply negb_false_iff in Hf. rewrite Hf. reflexivity.
  - intros str Hs Hne. run_call H. rewrite Hs. apply String.eqb_neq in Hne. now rewrite Hne.
  - intros v Hs Ht Hv. run_call H. rewrite Hs.
    destruct v as [|b|z|str]; simpl in Ht |- *;
      [discriminate | rewrite Ht; reflexivity | rewrite Ht; reflexivity |].
    exfalso. exact (Hv str eq_refl).
Qed.

Lemma checkPlantHealth_status_value_witness :
  let w := Samples.world [] (HOk {| hd_status := Some (JNum 7) |}) Samples.two_teams None true in
  checkPlantHealth w (Some "tok"%string) Samples.empty_st =
  (Throw (ExnError "Failed to retrieve plant health data"),
   add_trace Samples.empty_st [EGet (health_request w (Some "tok"%string))]).
Proof.
  intros w.
  destruct (checkPlantHealth_status_value w (Some "tok"%string) Samples.empty_st
              {| hd_status := Some (JNum 7) |} eq_refl) as (_ & _ & H).
  apply (H (JNum 7) eq_refl eq_refl). discriminate.
Defined.

(** The status message and the recommendations ignore the letter case of
    the status; a status that is none of healthy, warning, critical in any
    case gets the 'unknown' message and the four general recommendations. *)
Theorem status_message_case_insensitive st :
  getStatusMessage st = getStatusMessage (toLowerCase st) /\
  getRecommendations st = getRecommendations (toLowerCase st) /\
  (toLowerCase st <> "healthy"%string -> toLowerCase st <> "warning"%string ->
   toLowerCase st <> "critical"%string ->
   getStatusMessage st =
     "Plant health status is currently unknown. Please check your plants manually."%string /\
   getRecommendations st =
     ["Check soil moisture"; "Inspect plant leaves and stems";
      "Ensure adequate lighting"; "Review watering schedule"]%string).
Proof.
  unfold getStatusMessage, getRecommendations. rewrite toLowerCase_idem.
  split; [reflexivity|]. split; [reflexivity|].
  intros H1 H2 H3. apply String.eqb_neq in H1, H2, H3. rewrite H1, H2, H3. now split.
Qed.

Lemma status_message_case_insensitive_witness :
  getStatusMessage "Dormant" =
    "Plant health status is currently unknown. Please check your plants manually."%string /\
  getStatusMessage "HEALTHY" = getStatusMessage "healthy".
Proof.
  destruct (status_message_case_insensitive "Dormant") as (_ & _ & H).
  destruct (status_message_case_insensitive "HEALTHY") as (Hh & _ & _).
  split.
  - apply H; discriminate.
  - exact Hh.
Defined.

(* ------------------------------------------------------------------ *)
(** ** The Lambda entry point *)

Lemma handleIntentRequest_ok w i uid req : total response_ok (handleIntentRequest w i uid req).
Proof.
  unfold handleIntentRequest.
  destruct (String.eqb _ "CheckTeamPlantStatusIntent"); [apply handleCheckTeamPlantStatus_ok|].
  destruct (String.eqb _ "CheckPlantHealthIntent"); [apply handleCheckPlantHealth_ok|].
  destruct (String.eqb _ "ListPlantStatusIntent"); [apply handleListPlantStatus_ok|].
  destruct (String.eqb _ "AMAZON.FallbackIntent"); [apply handleFallbackIntent_ok|].
  destruct (String.eqb _ "AMAZON.HelpIntent"); [apply total_ret, fixed_responses_ok|].
  destruct (_ || _)%bool; apply total_ret;
    [apply fixed_responses_ok | apply createErrorResponse_ok; discriminate].
Qed.

Lemma handleAlexaRequest_cases w rq s :
  ((request_type rq = "IntentRequest"%string -> request_intent rq <> None) ->
   exists r s', handleAlexaRequest w rq s = (Ok r, s') /\
                (response_ok r \/ r = handleSessionEndedRequest)) /\
  (request_type rq = "IntentRequest"%string -> request_intent rq = None ->
   handleAlexaRequest w rq s = (Throw ExnType, s)).
Proof.
  pose proof fixed_responses_ok as F.
  unfold handleAlexaRequest. split.
  - intros Hi.
    destruct (String.eqb_spec (request_type rq) "LaunchRequest").
    { eexists _, _. split; [reflexivity | left; apply F]. }
    destruct (String.eqb_spec (request_type rq) "IntentRequest") as [E|].
    { destruct (request_intent rq) as [i|] eqn:Ei; [|exfalso; exact (Hi E eq_refl)].
      destruct (handleIntentRequest_ok w i
                  (str_or (or_str (session_userId rq) (ctx_userId rq)) "unknown") rq s)
        as [r [s' [Hr Hok]]].
      exists r, s'. split; [exact Hr | left; exact Hok]. }
    destruct (String.eqb (request_type rq) "SessionEndedRequest").
    + eexists _, _. split; [reflexivity | right; reflexivity].
    + eexists _, _. split; [reflexivity | left; apply createErrorResponse_ok; discriminate].
  - intros E Hn. rewrite E, Hn. reflexivity.
Qed.

(** The exported [handler] always answers, never failing: with the response
    of [handleAlexaRequest], or with its own apology when that fails; the
    answer is wrapped as an API Gateway result (status 200, JSON content
    type) exactly when the event has a [resource] key. Every answer but the
    one to SessionEndedRequest speaks a non-empty text and keeps the session
    open exactly when it reprompts. *)
Theorem handler_always_answers w e s :
  exists r s', handler w e s = (Ok (wrap e r), s') /\
               (response_ok r \/ r = handleSessionEndedRequest).
Proof.
  unfold handler, try_catch.
  destruct (event_request e) as [rq|].
  - destruct (handleAlexaRequest_cases w rq s) as [Hok Hthrow].
    destruct (String.eqb_spec (request_type rq) "IntentRequest") as [E|E];
      [destruct (request_intent rq) eqn:Ei|].
    + destruct (Hok (fun _ => ltac:(discriminate))) as [r [s' [Hr Hr']]].
      unfold bind. rewrite Hr. eauto.
    + unfold bind. rewrite (Hthrow E eq_refl).
      eexists _, _. split; [reflexivity | left; apply createErrorResponse_ok; discriminate].
    + destruct (Hok (fun H => False_ind _ (E H))) as [r [s' [Hr Hr']]].
      unfold bind. rewrite Hr. eauto.
  - eexists _, _. split; [reflexivity | left; apply createErrorResponse_ok; discriminate].
Qed.

(** [handler] apologises with 'Sorry, I encountered an error...' (session
    closed, no external call) exactly in the cases where no Alexa request
    can be read from the event or an IntentRequest carries no intent;
    otherwise it returns the response of [handleAlexaRequest] unchanged. *)
Theorem handler_error_cases w e s :
  ((event_request e = None \/
    exists rq, event_request e = Some rq /\ request_type rq = "IntentRequest"%string /\
               request_intent rq = None) ->
   handler w e s = (Ok (wrap e (createErrorResponse handler_error_text)), s)) /\
  (forall rq, event_request e = Some rq ->
   (request_type rq = "IntentRequest"%string -> request_intent rq <> None) ->
   exists r s', handleAlexaRequest w rq s = (Ok r, s') /\ handler w e s = (Ok (wrap e r), s')).
Proof.
  split.
  - intros [Hn | [rq [Hrq [Hty Hi]]]]; unfold handler, try_catch.
    + rewrite Hn. reflexivity.
    + rewrite Hrq. unfold bind.
      rewrite (proj2 (handleAlexaRequest_cases w rq s) Hty Hi). reflexivity.
  - intros rq Hrq Hi.
    destruct (proj1 (handleAlexaRequest_cases w rq s) Hi) as [r [s' [Hr _]]].
    exists r, s'. split; [exact Hr|].
    unfold handler, try_catch. rewrite Hrq. unfold bind. rewrite Hr. reflexivity.
Qed.

Lemma handler_error_cases_witness :
  let w := Samples.world [] (HStatus 401) Samples.two_teams None true in
  let e := {| ev_body := BodyString (Some (Samples.event "IntentRequest" None None));
              ev_self := None; ev_resource := true |} in
  handler w e Samples.empty_st =
  (Ok (Proxy 200 [json_header] (createErrorResponse handler_error_text)), Samples.empty_st).
Proof.
  intros w e.
  destruct (handler_error_cases w e Samples.empty_st) as [H _].
  apply H. right. eexists. split; [reflexivity | split; reflexivity].
Defined.

(* ------------------------------------------------------------------ *)
(** ** The team-scoped and fallback handlers *)

(** Without a usable team name (no slot value, or only white space), the
    team handler asks which team to check, reprompting with the session
    open, and calls no API. *)
Theorem blank_team_name_asks w uid tn req s s1 tok :
  getAccessToken w req uid s = (Ok (Some tok), s1) -> tok <> ""%string ->
  (tn = None \/ exists n, tn = Some n /\ trim n = ""%string) ->
  handleCheckTeamPlantStatus w uid tn req s = (Ok ask_team_response, s1) /\
  shouldEndSession ask_team_response = false /\ reprompt ask_team_response <> None.
Proof.
  intros Htok Hne Htn. split; [|split; [reflexivity | discriminate]].
  unfold handleCheckTeamPlantStatus.
  rewrite (try_bind_ok _ _ _ _ _ _ Htok). apply String.eqb_neq in Hne.
  cbv beta iota. rewrite Hne.
  destruct Htn as [-> | [n [-> Hn]]]; [reflexivity|]. now rewrite Hn.
Qed.

Lemma blank_team_name_asks_witness :
  let w := Samples.world [Samples.kitchen] (HStatus 401) Samples.two_teams None true in
  handleCheckTeamPlantStatus w "u" (Some "   "%string) (Samples.event "IntentRequest" None (Some "tok"%string))
    Samples.empty_st = (Ok ask_team_response, Samples.empty_st).
Proof.
  intros w.
  apply (blank_team_name_asks w "u" (Some "   "%string) (Samples.event "IntentRequest" None (Some "tok"%string))
           Samples.empty_st Samples.empty_st "tok"%string eq_refl ltac:(discriminate)).
  right. eexists. split; reflexivity.
Defined.

(** The plant loop of the team handler fetches the details of every plant
    once, in list order, and appends one entry per plant whose details it
    got (name from the details, else from the team entry, else 'Unnamed
    Plant'), skipping the plants whose fetch failed, keeping their order. *)
Theorem collect_team_plants_result w tok ps acc s :
  collect_team_plants w tok ps acc s =
  (Ok (acc ++ flat_map (fun p =>
         match w_plant w tok (tp_id p) with
         | HOk pd => [{| ps_name := str_or (or_str (pd_name pd) (tp_name p)) "Unnamed Plant";
                         ps_id := tp_id p; ps_needsWatered := team_needs_water pd |}]
         | _ => []
         end) ps),
   add_trace s (map (fun p => EGet (plant_request w tok (tp_id p))) ps)).
Proof. apply collect_team_plants_eq. Qed.

Lemma flat_map_nil_iff {A B} (f : A -> list B) l :
  flat_map f l = [] <-> forall x, In x l -> f x = [].
Proof.
  induction l as [|a l IH]; simpl; [split; [intros _ x [] | reflexivity]|].
  split.
  - intros H. apply app_eq_nil in H as [H1 H2].
    intros x [<-|Hx]; [exact H1 | apply IH; assumption].
  - intros H. rewrite (H a (or_introl eq_refl)). simpl. apply IH. auto.
Qed.

(** The entries the team handler's plant loop collects from [ps]. *)
Lemma check_matched_team_plants w tok t s td :
  w_team w tok (team_id t) = HOk td ->
  fst (check_matched_team w tok t s) =
  match default [] (plants td) with
  | [] => Ok (team_no_plants_response t)
  | ps =>
      match flat_map (fun p =>
              match w_plant w tok (tp_id p) with
              | HOk pd => [{| ps_name := str_or (or_str (pd_name pd) (tp_name p)) "Unnamed Plant";
                              ps_id := tp_id p; ps_needsWatered := team_needs_water pd |}]
              | _ => []
              end) ps with
      | [] => Ok (team_retrieve_failed_response t)
      | l => Ok (team_status_response t l)
      end
  end.
Proof.
  intros Htd. unfold check_matched_team, bind at 1.
  rewrite getTeamDetails_failure, Htd. cbv beta iota.
  destruct (default [] (plants td)) as [|p0 ps0]; [reflexivity|].
  unfold bind. rewrite collect_team_plants_result. cbv beta iota.
  destruct (flat_map _ _); reflexivity.
Qed.

(** Once a team is selected, the team handler answers that the team has no
    plants when its details list none, and that the plant details could not
    be retrieved when every plant's fetch fails; when some fetch succeeds,
    it reports the status of exactly the plants it got, in order. *)
Theorem check_matched_team_outcomes w tok t s td :
  w_team w tok (team_id t) = HOk td ->
  (default [] (plants td) = [] ->
   fst (check_matched_team w tok t s) = Ok (team_no_plants_response t)) /\
  (default [] (plants td) <> [] ->
   (forall p, In p (default [] (plants td)) ->
      match w_plant w tok (tp_id p) with HOk _ => False | _ => True end) ->
   fst (check_matched_team w tok t s) = Ok (team_retrieve_failed_response t)) /\
  (forall p pd, In p (default [] (plants td)) -> w_plant w tok (tp_id p) = HOk pd ->
   In {| ps_name := str_or (or_str (pd_name pd) (tp_name p)) "Unnamed Plant";
         ps_id := tp_id p; ps_needsWatered := team_needs_water pd |}
      (flat_map (fun p =>
        match w_plant w tok (tp_id p) with
        | HOk pd => [{| ps_name := str_or (or_str (pd_name pd) (tp_name p)) "Unnamed Plant";
                        ps_id := tp_id p; ps_needsWatered := team_needs_water pd |}]
        | _ => []
        end) (default [] (plants td))) /\
   fst (check_matched_team w tok t s) =
   Ok (team_status_response t (flat_map (fun p =>
        match w_plant w tok (tp_id p) with
        | HOk pd => [{| ps_name := str_or (or_str (pd_name pd) (tp_name p)) "Unnamed Plant";
                        ps_id := tp_id p; ps_needsWatered := team_needs_water pd |}]
        | _ => []
        end) (default [] (plants td))))).
Proof.
  intros Htd. rewrite (check_matched_team_plants w tok t s td Htd).
  split; [|split].
  - intros ->. reflexivity.
  - intros Hne Hall. destruct (default [] (plants td)) as [|p0 ps0]; [contradiction|].
    replace (flat_map _ (p0 :: ps0)) with (@nil PlantStatus); [reflexivity|].
    symmetry. apply flat_map_nil_iff. intros p Hp.
    specialize (Hall p Hp). destruct (w_plant w tok (tp_id p)); [contradiction | reflexivity..].
  - intros p pd Hin Hp.
    assert (Hl : In {| ps_name := str_or (or_str (pd_name pd) (tp_name p)) "Unnamed Plant";
                       ps_id := tp_id p; ps_needsWatered := team_needs_water pd |}
                    (flat_map (fun p =>
        match w_plant w tok (tp_id p) with
        | HOk pd => [{| ps_name := str_or (or_str (pd_name pd) (tp_name p)) "Unnamed Plant";
                        ps_id := tp_id p; ps_needsWatered := team_needs_water pd |}]
        | _ => []
        end) (default [] (plants td)))).
    { apply in_flat_map. exists p. split; [exact Hin|]. rewrite Hp. left. reflexivity. }
    split; [exact Hl|].
    destruct (default [] (plants td)) as [|p0 ps0]; [destruct Hin|].
    destruct (flat_map _ (p0 :: ps0)) as [|e l]; [destruct Hl | reflexivity].
Qed.

Lemma check_matched_team_outcomes_witness :
  let w := Samples.world [Samples.kitchen] (HStatus 401) Samples.two_teams None true in
  fst (check_matched_team w "tok" Samples.kitchen Samples.empty_st) =
  Ok (team_status_response Samples.kitchen
        [{| ps_name := "fern"; ps_id := tp_id Samples.fern;
            ps_needsWatered := team_needs_water Samples.bare_details |};
         {| ps_name := "cactus"; ps_id := tp_id Samples.cactus;
            ps_needsWatered := team_needs_water Samples.bare_details |}]).
Proof.
  intros w.
  destruct (check_matched_team_outcomes w "tok" Samples.kitchen Samples.empty_st
              {| plants := Some [Samples.fern; Samples.cactus] |} eq_refl) as (_ & _ & H).
  exact (proj2 (H Samples.fern Samples.bare_details (or_introl eq_refl) eq_refl)).
Defined.

(** The fallback intent never fails: it lists the user's teams and
    reprompts when a token is found and the team list is non-empty; when
    the token lookup fails or finds no token, the team request fails, or
    the list is empty, it gives the generic hint instead. *)
Theorem fallback_outcomes w uid req s :
  (forall tok s1 ts, getAccessToken w req uid s = (Ok (Some tok), s1) -> tok <> ""%string ->
   w_teams w tok = HOk {| teams := Some ts |} -> ts <> [] ->
   handleFallbackIntent w uid req s =
   (Ok (fallback_teams_response (team_names ts)), add_trace s1 [EGet (teams_request w tok)])) /\
  ((exists e s1, getAccessToken w req uid s = (Throw e, s1)) \/
   (exists s1, getAccessToken w req uid s = (Ok None, s1) \/
               getAccessToken w req uid s = (Ok (Some ""%string), s1)) \/
   (exists tok s1, getAccessToken w req uid s = (Ok (Some tok), s1) /\ tok <> ""%string /\
                   forall d, w_teams w tok = HOk d -> default [] (teams d) = []) ->
   fst (handleFallbackIntent w uid req s) = Ok fallback_generic_response).
Proof.
  split.
  - intros tok s1 ts Htok Hne Hteams Hts.
    unfold handleFallbackIntent, bind, try_catch. rewrite Htok.
    apply String.eqb_neq in Hne. rewrite Hne.
    rewrite getTeams_failure, Hteams. simpl.
    destruct ts; [contradiction | reflexivity].
  - intros [[e [s1 H]] | [[s1 [H|H]] | [tok [s1 [H [Hne Hempty]]]]]];
      unfold handleFallbackIntent, bind, try_catch; rewrite H; try reflexivity.
    apply String.eqb_neq in Hne. rewrite Hne.
    rewrite getTeams_failure.
    destruct (w_teams w tok) as [d|st|code]; simpl; try reflexivity.
    now rewrite (Hempty d eq_refl).
Qed.

Lemma fallback_outcomes_witness :
  let w := Samples.world [Samples.kitchen; Samples.office] (HStatus 401) Samples.two_teams None true in
  let req := Samples.event "IntentRequest" None (Some "tok"%string) in
  handleFallbackIntent w "u" req Samples.empty_st =
  (Ok (fallback_teams_response (team_names [Samples.kitchen; Samples.office])),
   add_trace Samples.empty_st [EGet (teams_request w "tok")]).
Proof.
  intros w req.
  exact (proj1 (fallback_outcomes w "u" req Samples.empty_st) "tok"%string Samples.empty_st
           [Samples.kitchen; Samples.office] eq_refl ltac:(discriminate) eq_refl ltac:(discriminate)).
Defined.

(** When the team-list request fails, both list handlers end the session:
    a 401 gets the account-linking text without a LinkAccount card; any
    other failure gets their apology. *)
Theorem team_list_failure_responses w uid req s s1 tok :
  getAccessToken w req uid s = (Ok (Some tok), s1) -> tok <> ""%string ->
  (w_teams w tok = HStatus 401 ->
   fst (handleListPlantStatus w uid req s) = Ok status_unauthorized_response /\
   (forall tn, trim tn <> ""%string ->
    fst (handleCheckTeamPlantStatus w uid (Some tn) req s) = Ok status_unauthorized_response) /\
   card status_unauthorized_response = None /\ shouldEndSession status_unauthorized_response = true) /\
  ((exists st, w_teams w tok = HStatus st /\ st <> 401) \/ (exists c, w_teams w tok = HNoResponse c) ->
   fst (handleListPlantStatus w uid req s) =
     Ok (createErrorResponse "Sorry, I couldn't retrieve your plant status right now. Please try again later.") /\
   (forall tn, trim tn <> ""%string ->
    fst (handleCheckTeamPlantStatus w uid (Some tn) req s) =
    Ok (createErrorResponse
          "Sorry, I couldn't retrieve the plant status for that team right now. Please try again later."))).
Proof.
  intros Htok Hne. apply String.eqb_neq in Hne.
  split.
  - intros H401. split; [|split; [|split; reflexivity]].
    + unfold handleListPlantStatus. rewrite (try_bind_ok _ _ _ _ _ _ Htok). cbv beta iota.
      rewrite Hne. unfold try_catch, bind. rewrite getTeams_failure, H401. reflexivity.
    + intros tn Htn. apply String.eqb_neq in Htn.
      unfold handleCheckTeamPlantStatus. rewrite (try_bind_ok _ _ _ _ _ _ Htok). cbv beta iota.
      rewrite Hne, Htn. unfold try_catch, bind. rewrite getTeams_failure, H401. reflexivity.
  - intros Hf.
    assert (He : exists m, getTeams w tok s1 = (Throw (ExnError m), add_trace s1 [EGet (teams_request w tok)]) /\
                           m = "Failed to retrieve teams"%string).
    { rewrite getTeams_failure. destruct Hf as [[st [Hst Hn]] | [c Hc]].
      - rewrite Hst. apply Z.eqb_neq in Hn. rewrite Hn. eauto.
      - rewrite Hc. eauto. }
    destruct He as [m [Hg ->]]. split.
    + unfold handleListPlantStatus. rewrite (try_bind_ok _ _ _ _ _ _ Htok). cbv beta iota.
      rewrite Hne. unfold try_catch at 1, bind at 1. rewrite Hg. reflexivity.
    + intros tn Htn. apply String.eqb_neq in Htn.
      unfold handleCheckTeamPlantStatus. rewrite (try_bind_ok _ _ _ _ _ _ Htok). cbv beta iota.
      rewrite Hne, Htn. unfold try_catch at 1, bind at 1. rewrite Hg. reflexivity.
Qed.

Lemma team_list_failure_responses_witness :
  let w := Samples.w500 in
  let req := Samples.event "IntentRequest" None (Some "tok"%string) in
  fst (handleListPlantStatus w "u" req Samples.empty_st) =
  Ok (createErrorResponse "Sorry, I couldn't retrieve your plant status right now. Please try again later.").
Proof.
  intros w req.
  destruct (team_list_failure_responses w "u" req Samples.empty_st Samples.empty_st "tok"%string
              eq_refl ltac:(discriminate)) as [_ H].
  apply H. left. exists 500. split; [reflexivity | discriminate].
Defined.

(* ------------------------------------------------------------------ *)
(** ** Team matching as substring containment *)

Lemma prefix_spec p s : String.prefix p s = true <-> exists b, s = (p ++ b)%string.
Proof.
  revert s. induction p as [|a p IH]; intros s.
  - split; [eauto | intros _; destruct s; reflexivity].
  - destruct s as [|c s]; simpl.
    + split; [discriminate | intros [b Hb]; discriminate].
    + destruct (Ascii.ascii_dec a c) as [<-|Hac].
      * rewrite IH. split; intros [b Hb]; exists b; [now rewrite Hb | now injection Hb].
      * split; [discriminate | intros [b Hb]; injection Hb; intros _ E; congruence].
Qed.

Lemma string_app_nil_r x : (x ++ "")%string = x.
Proof. induction x as [|c x IH]; [reflexivity | exact (f_equal (String c) IH)]. Qed.

Lemma includes_eq hay needle :
  includes hay needle =
  (String.prefix needle hay ||
   match hay with EmptyString => false | String _ r => includes r needle end)%bool.
Proof. destruct hay; reflexivity. Qed.

Lemma includes_spec hay needle :
  includes hay needle = true <-> exists a b, hay = (a ++ needle ++ b)%string.
Proof.
  induction hay as [|c hay IH]; rewrite includes_eq; cbv iota beta.
  - rewrite orb_false_r, prefix_spec. split.
    + intros [b Hb]. exists ""%string, b. exact Hb.
    + intros [a [b Hab]]. destruct a; [eauto | discriminate].
  - rewrite orb_true_iff, prefix_spec, IH. split.
    + intros [[b Hb] | [a [b Hab]]].
      * exists ""%string, b. exact Hb.
      * exists (String c a), b. now rewrite Hab.
    + intros [a [b Hab]]. destruct a as [|c' a].
      * left. exists b. exact Hab.
      * right. injection Hab. intros E _. eauto.
Qed.

(** The team-matching predicate holds exactly when the lower-cased team
    name (missing or empty read as '') contains the normalized spoken name
    or is contained in it. *)
Theorem team_matches_substring n t :
  let low := toLowerCase (str_or (team_name t) "") in
  team_matches n t = true <->
  (exists a b, low = (a ++ n ++ b)%string) \/ (exists a b, n = (a ++ low ++ b)%string).
Proof.
  intros low. unfold team_matches. fold low.
  rewrite !orb_true_iff, !includes_spec. split.
  - intros [[H|H]|H]; [left | right | left]; try exact H.
    apply String.eqb_eq in H. exists ""%string, ""%string. rewrite H. simpl. symmetry. apply string_app_nil_r.
  - intros [H|H]; left; [left | right]; exact H.
Qed.

(* ------------------------------------------------------------------ *)
(** ** The list-all handler when no team yields a plant *)

Lemma collect_teams_nothing w tok ts acc s :
  (forall t, In t ts -> match w_team w tok (team_id t) with
                        | HOk td => default [] (plants td) = []
                        | _ => True
                        end) ->
  exists s', collect_teams w tok ts acc s = (Ok acc, s').
Proof.
  revert acc s. induction ts as [|t ts IH]; intros acc s Hall; [simpl; eauto|].
  assert (Hrest : forall t', In t' ts -> match w_team w tok (team_id t') with
                                         | HOk td => default [] (plants td) = []
                                         | _ => True end) by (intros; apply Hall; right; assumption).
  specialize (Hall t (or_introl eq_refl)).
  destruct (w_team w tok (team_id t)) as [td|st|code] eqn:E.
  - simpl. unfold bind at 1, try_catch, bind at 1.
    rewrite getTeamDetails_failure, E. simpl. rewrite Hall. simpl. apply IH, Hrest.
  - rewrite (collect_teams_skip w tok t ts acc s _ _
               ltac:(rewrite getTeamDetails_failure, E; reflexivity)).
    apply IH, Hrest.
  - rewrite (collect_teams_skip w tok t ts acc s _ _
               ltac:(rewrite getTeamDetails_failure, E; reflexivity)).
    apply IH, Hrest.
Qed.

(** When every team's details request fails or lists no plants, the
    list-all handler tells the user that no plants are set up yet: a
    failed team-details request is reported as an empty team. *)
Theorem list_all_failures_say_no_plants w uid req s s1 tok ts :
  getAccessToken w req uid s = (Ok (Some tok), s1) -> tok <> ""%string ->
  w_teams w tok = HOk {| teams := Some ts |} -> ts <> [] ->
  (forall t, In t ts -> match w_team w tok (team_id t) with
                        | HOk td => default [] (plants td) = []
                        | _ => True
                        end) ->
  fst (handleListPlantStatus w uid req s) = Ok no_plants_response.
Proof.
  intros Htok Hne Hteams Hts Hall.
  unfold handleListPlantStatus. rewrite (try_bind_ok _ _ _ _ _ _ Htok). cbv beta iota.
  apply String.eqb_neq in Hne. rewrite Hne.
  rewrite (try_bind_ok _ _ _ _ _ _ (getTeams_ok w tok s1 _ Hteams)). cbv beta iota.
  simpl default. destruct ts as [|t0 ts']; [contradiction|].
  destruct (collect_teams_nothing w tok (t0 :: ts') [] (add_trace s1 [EGet (teams_request w tok)]) Hall)
    as [s' Hc].
  rewrite (try_bind_ok _ _ _ _ _ _ Hc). reflexivity.
Qed.

Lemma list_all_failures_say_no_plants_witness :
  let w := Samples.world [Samples.office] (HStatus 401) Samples.two_teams None true in
  let req := Samples.event "IntentRequest" None (Some "tok"%string) in
  fst (handleListPlantStatus w "u" req Samples.empty_st) = Ok no_plants_response.
Proof.
  intros w req.
  apply (list_all_failures_say_no_plants w "u" req Samples.empty_st Samples.empty_st "tok"%string
           [Samples.office] eq_refl ltac:(discriminate) eq_refl ltac:(discriminate)).
  intros t [<-|[]]. exact I.
Defined.

(** When the selected team's details request fails with a status, the team
    handler ends the session with the account-linking text (no card) for a
    401 and with its apology otherwise; a 404 ('Team not found') is not
    reported as such. *)
Theorem team_details_failure_responses w uid tn req s s1 tok pre t post st :
  getAccessToken w req uid s = (Ok (Some tok), s1) -> tok <> ""%string ->
  trim tn <> ""%string -> w_teams w tok = HOk {| teams := Some (pre ++ t :: post) |} ->
  Forall (fun x => team_matches (normalize_team_name tn) x = false) pre ->
  team_matches (normalize_team_name tn) t = true ->
  w_team w tok (team_id t) = HStatus st ->
  fst (handleCheckTeamPlantStatus w uid (Some tn) req s) =
  Ok (if st =? 401 then status_unauthorized_response
      else createErrorResponse
             "Sorry, I couldn't retrieve the plant status for that team right now. Please try again later.").
Proof.
  intros Htok Hne Htrim Hteams Hpre Ht Hst.
  rewrite (team_handler_after_teams w uid tn req s s1 tok (pre ++ t :: post) Htok Hne Htrim Hteams
             ltac:(destruct pre; discriminate)).
  rewrite (find_first _ pre t post Hpre Ht).
  unfold try_catch, check_matched_team, bind at 1. rewrite getTeamDetails_failure, Hst.
  unfold team_status_catch.
  destruct (Z.eqb_spec st 404) as [->|_]; [reflexivity|]. destruct (st =? 401); reflexivity.
Qed.

Lemma team_details_failure_responses_witness :
  let w := Samples.world [Samples.kitchen; Samples.office] (HStatus 401) Samples.two_teams None true in
  let req := Samples.event "IntentRequest" None (Some "tok"%string) in
  fst (handleCheckTeamPlantStatus w "u" (Some "office"%string) req Samples.empty_st) =
  Ok (createErrorResponse
        "Sorry, I couldn't retrieve the plant status for that team right now. Please try again later.").
Proof.
  intros w req.
  exact (team_details_failure_responses w "u" "office" req Samples.empty_st Samples.empty_st "tok"
           [Samples.kitchen] Samples.office [] 500 eq_refl ltac:(discriminate) ltac:(discriminate)
           eq_refl ltac:(repeat constructor) eq_refl eq_refl).
Defined.
